(** * Account REST service: handlers of [service/routes.py]

    A shallow embedding of the request handlers of the Account service and
    of the parts of their environment they rely on: the JSON values that
    travel in requests and responses, the Account record layer
    ([service.models], not part of the sources at hand and therefore
    modelled from the specification), and the request dispatch of the web
    framework (route table built by the [@app.route] decorators). *)

From Stdlib Require Import ZArith NArith Ascii DecimalPos DecimalString.
From stdpp Require Import gmap strings list.

Set Warnings "-register-all".

Open Scope string_scope.
Open Scope Z_scope.
Open Scope list_scope.

(** ** JSON values

    What [request.get_json()] yields and what [jsonify] takes: Python
    [None], [bool], [int], [str], [list] and [dict] with string keys.
    Numbers are integers; the service has no fractional field. *)

Inductive json :=
  | JNull
  | JBool (b : bool)
  | JNum (n : Z)
  | JStr (s : string)
  | JArr (l : list json)
  | JObj (d : gmap string json).

(** Python's [str()] on the integers that appear in messages and URLs. *)
Definition str_int (n : Z) : string := NilZero.string_of_int (Z.to_int n).

Definition str_opt (o : option string) : string :=
  match o with
  | Some s => s
  | None => "None"
  end.

(** ** HTTP status codes ([service.common.status]) *)

(** Modelled from the spec: the constants of [service.common.status], a
    module that is not among the sources. They are the standard codes, with
    the values the interface table of the specification gives (section 6). *)

Module status.
Definition HTTP_200_OK : Z := 200.
Definition HTTP_201_CREATED : Z := 201.
Definition HTTP_204_NO_CONTENT : Z := 204.
Definition HTTP_400_BAD_REQUEST : Z := 400.
Definition HTTP_404_NOT_FOUND : Z := 404.
Definition HTTP_405_METHOD_NOT_ALLOWED : Z := 405.
Definition HTTP_415_UNSUPPORTED_MEDIA_TYPE : Z := 415.
Definition HTTP_500_INTERNAL_SERVER_ERROR : Z := 500.
End status.

(** ** The Account record and the persistent store *)

(** Modelled from the spec: the Account entity of [service.models] (section 3
    of the specification). [id] is absent until the store assigns it. The
    other attributes hold whatever JSON value the client supplied, as the
    untyped mapping of the original does; a date is held by its ISO
    rendering. *)
Record account := Account_ {
  id : option Z;
  name : json;
  email : json;
  address : json;
  phone_number : json;
  date_joined : json
}.

(** Modelled from the spec: the relational table behind [service.models].
    Rows are kept in insertion order (the order the specification recommends
    for [all()]); ids are handed out by a counter, so that an id is never
    assigned twice. *)
Record store := Store {
  rows : list account;
  next_id : Z
}.

(** A logging record of [app.logger]: level and formatted message. *)
Record log_record := LogRecord {
  levelname : string;
  message : string
}.

(** What [request.get_json()] does with a body whose Content-Type is not
    JSON is decided by the framework installed: it returns [None] (Flask
    before 2.1), fails with 400 (Flask 2.1 and 2.2) or fails with 415
    (Flask 2.3 and later). The sources do not say which one is installed. *)
Inductive non_json_handling :=
  | ReturnsNone
  | RaisesBadRequest
  | RaisesUnsupportedMediaType.

(** Everything a request can read or change: the store, the application
    log, the calendar date [date.today()] reports (ISO rendering), and the
    framework's handling of bodies that are not JSON. *)
Record world := World {
  db : store;
  log : list log_record;
  today : string;
  on_non_json : non_json_handling
}.

Definition set_db (s : store) (w : world) : world :=
  {| db := s; log := log w; today := today w; on_non_json := on_non_json w |}.

Definition add_log (r : log_record) (w : world) : world :=
  {| db := db w; log := log w ++ [r]; today := today w; on_non_json := on_non_json w |}.

(** ** Exceptions and the handler monad *)

Inductive exn :=
  | HTTPException (code : Z) (description : string)
  | DataValidationError (msg : string)
  | StoreError (msg : string).

(** A computation reads and updates the world and either raises or returns.
    State changes made before a raise persist, as in Python. *)
Definition M (A : Type) : Type := world → (exn + A) * world.

Definition ret {A} (a : A) : M A := λ w, (inr a, w).

Definition bind {A B} (m : M A) (k : A → M B) : M B :=
  λ w, match m w with
       | (inr a, w') => k a w'
       | (inl e, w') => (inl e, w')
       end.

Definition raise {A} (e : exn) : M A := λ w, (inl e, w).

Definition gets {A} (f : world → A) : M A := λ w, (inr (f w), w).

Definition modify (f : world → world) : M unit := λ w, (inr tt, f w).

#[export] Instance M_ret : MRet M := @ret.
#[export] Instance M_bind : MBind M := λ A B k m, bind m k.

(** ** The web framework: requests, responses, abort, logging *)

Module flask.

Record request := Request {
  method : string;
  path : string;
  headers : gmap string string;
  json_body : json
}.

(** The media type of a request: the Content-Type header up to the first
    [;], without surrounding blanks, in lower case; empty when there is no
    header. *)
Definition ascii_lower (c : ascii) : ascii :=
  let n := N_of_ascii c in
  if ((65 <=? n) && (n <=? 90))%N then ascii_of_N (n + 32) else c.

Fixpoint lower (s : string) : string :=
  match s with
  | EmptyString => EmptyString
  | String c s' => String (ascii_lower c) (lower s')
  end.

Definition is_space (c : ascii) : bool :=
  let n := N_of_ascii c in
  (((9 <=? n) && (n <=? 13)) || (n =? 32))%N.

Fixpoint lstrip (s : string) : string :=
  match s with
  | EmptyString => EmptyString
  | String c s' => if is_space c then lstrip s' else s
  end.

Definition strip (s : string) : string :=
  String.rev (lstrip (String.rev (lstrip s))).

Fixpoint before_semicolon (s : string) : string :=
  match s with
  | EmptyString => EmptyString
  | String c s' => if Ascii.eqb c ";" then EmptyString else String c (before_semicolon s')
  end.

Definition mimetype (req : request) : string :=
  lower (strip (before_semicolon (default "" (headers req !! "Content-Type")))).

Definition ends_with (suffix s : string) : bool :=
  String.prefix (String.rev suffix) (String.rev s).

(** [request.is_json]: the media type is application/json or
    application/...+json. *)
Definition is_json (req : request) : bool :=
  let mt := mimetype req in
  String.eqb mt "application/json"
  || (String.prefix "application/" mt && ends_with "+json" mt).

(** [request.get_json()]: the parsed body when the request is JSON (the
    body, [json_body], is taken to be well-formed); otherwise what the
    installed framework does. The description of the error is the
    framework's and varies with its version and mode; only the status is
    used below. *)
Definition get_json (req : request) : M json :=
  if is_json req then mret (json_body req)
  else
    h ← gets on_non_json;
    match h with
    | ReturnsNone => mret JNull
    | RaisesBadRequest =>
        raise (HTTPException status.HTTP_400_BAD_REQUEST
                 "Did not attempt to load JSON data because the request Content-Type was not 'application/json'.")
    | RaisesUnsupportedMediaType =>
        raise (HTTPException status.HTTP_415_UNSUPPORTED_MEDIA_TYPE
                 "Did not attempt to load JSON data because the request Content-Type was not 'application/json'.")
    end.

Record response := Response {
  status_code : Z;
  resp_headers : list (string * string);
  data : option json
}.

(** [response.headers.get(name)] *)
Definition header (h : string) (r : response) : option string :=
  snd <$> List.find (λ kv, String.eqb (fst kv) h) (resp_headers r).

(** [jsonify(x)]: a JSON response, 200 until a status is given. A view
    that returns a [dict] is answered the same way. *)
Definition jsonify (x : json) : response :=
  {| status_code := status.HTTP_200_OK;
     resp_headers := [("Content-Type", "application/json")];
     data := Some x |}.

(** [make_response(rv, code, headers)] *)
Definition make_response (rv : response) (code : Z) (hs : list (string * string)) : response :=
  {| status_code := code;
     resp_headers := resp_headers rv ++ hs;
     data := data rv |}.

(** A view's [return rv, code]. *)
Definition with_status (rv : response) (code : Z) : response :=
  {| status_code := code; resp_headers := resp_headers rv; data := data rv |}.

Definition abort {A} (code : Z) (description : string) : M A :=
  raise (HTTPException code description).

Definition logger_info (msg : string) : M unit :=
  modify (add_log {| levelname := "INFO"; message := msg |}).

Definition logger_error (msg : string) : M unit :=
  modify (add_log {| levelname := "ERROR"; message := msg |}).

(** *** URL rules and request matching

    A rule is what one [@app.route] decorator registers: the URL pattern,
    the listed methods, the endpoint name and the view function. The two
    shapes are the ones the service uses: a fixed path, and a fixed prefix
    followed by one [<int:...>] argument. *)
Inductive rule :=
  | Rule (pattern : string) (methods : list string) (endpoint : string)
         (view_func : request → M response)
  | RuleInt (prefix : string) (methods : list string) (endpoint : string)
            (view_func : Z → request → M response).

Definition rule_methods (r : rule) : list string :=
  match r with
  | Rule _ ms _ _ | RuleInt _ ms _ _ => ms
  end.

Definition rule_endpoint (r : rule) : string :=
  match r with
  | Rule _ _ e _ | RuleInt _ _ e _ => e
  end.

(** The methods a rule answers: the listed ones, [HEAD] whenever [GET] is
    listed, and [OPTIONS], which the framework provides by itself. *)
Definition with_automatic_methods (ms : list string) : list string :=
  ms ++ (if bool_decide ("GET" ∈ ms) then ["HEAD"] else [])
     ++ (if bool_decide ("OPTIONS" ∈ ms) then [] else ["OPTIONS"]).

Definition allowed_methods (r : rule) : list string :=
  with_automatic_methods (rule_methods r).

Fixpoint strip_prefix (p s : string) : option string :=
  match p with
  | EmptyString => Some s
  | String c p' =>
      match s with
      | EmptyString => None
      | String c' s' => if Ascii.eqb c c' then strip_prefix p' s' else None
      end
  end.

(** The [int] converter: one or more decimal digits, read as a number.
    Paths are byte strings and the digits are [0] to [9]; digits of other
    scripts, which the converter's pattern also takes in a decoded path,
    are outside the model. *)
Definition int_converter (s : string) : option Z :=
  Z.of_uint <$> NilZero.uint_of_string s.

(** The view a rule binds for a path, when the path matches its pattern. *)
Definition match_rule (r : rule) (p : string) : option (request → M response) :=
  match r with
  | Rule pat _ _ v => if String.eqb pat p then Some v else None
  | RuleInt pre _ _ v =>
      rest ← strip_prefix pre p;
      k ← int_converter rest;
      Some (v k)
  end.

Inductive match_result :=
  | Matched (r : rule) (view : request → M response)
  | MethodNotAllowed
  | NotFound.

(** Rules are tried in registration order. A rule whose pattern matches
    but whose methods do not is remembered: when no rule serves the
    request the outcome is then "method not allowed", not "not found".
    The path is matched as it was sent. The redirect with which the
    framework answers a path that only matches once its repeated slashes
    are merged is outside the model, so that what is proved about the
    matched rule is stated for the paths of the route table
    ([path_defined]), where no such redirect occurs. *)
Fixpoint match_request (rules : list rule) (meth p : string)
    (have_match_for : bool) : match_result :=
  match rules with
  | [] => if have_match_for then MethodNotAllowed else NotFound
  | r :: rules' =>
      match match_rule r p with
      | Some v =>
          if bool_decide (meth ∈ allowed_methods r) then Matched r v
          else match_request rules' meth p true
      | None => match_request rules' meth p have_match_for
      end
  end.

(** All methods some rule answers on a path (the [Allow] header). *)
Definition path_methods (rules : list rule) (p : string) : list string :=
  remove_dups
    (mjoin ((λ r, match match_rule r p with
                 | Some _ => allowed_methods r
                 | None => []
                 end) <$> rules)).

Definition make_default_options_response (rules : list rule) (p : string) : response :=
  {| status_code := status.HTTP_200_OK;
     resp_headers := [("Allow", String.concat ", " (path_methods rules p))];
     data := None |}.

Definition dispatch_request (rules : list rule) (req : request) : M response :=
  match match_request rules (method req) (path req) false with
  | NotFound => abort status.HTTP_404_NOT_FOUND "Not Found"
  | MethodNotAllowed => abort status.HTTP_405_METHOD_NOT_ALLOWED "Method Not Allowed"
  | Matched r view =>
      if String.eqb (method req) "OPTIONS" && negb (bool_decide ("OPTIONS" ∈ rule_methods r))
      then mret (make_default_options_response rules (path req))
      else view req
  end.

(** Modelled from the spec: the error handlers of
    [service.common.error_handlers], absent from the sources. Section 7:
    validation and not-found conditions are converted to the corresponding
    HTTP status with a short human-readable message; a data-validation
    error of the record layer is a bad request (400); store errors
    surface as server errors (500). *)
Definition error_response (code : Z) (msg : string) : response :=
  with_status (jsonify (JObj {[ "status" := JNum code; "message" := JStr msg ]})) code.

(** Modelled from the spec: the status each exception is answered with
    (section 7), an abort with its own code. *)
Definition handle_exception (e : exn) : response :=
  match e with
  | HTTPException code description => error_response code description
  | DataValidationError msg => error_response status.HTTP_400_BAD_REQUEST msg
  | StoreError msg => error_response status.HTTP_500_INTERNAL_SERVER_ERROR msg
  end.

(** A [HEAD] request is answered like [GET], without the body. *)
Definition finalize (req : request) (r : response) : response :=
  if String.eqb (method req) "HEAD"
  then {| status_code := status_code r; resp_headers := resp_headers r; data := None |}
  else r.

(** The response to a computation: its result, or the rendering of the
    exception it raised. *)
Definition respond (m : M response) (w : world) : response * world :=
  match m w with
  | (inr r, w') => (r, w')
  | (inl e, w') => (handle_exception e, w')
  end.

(** One request, from dispatch to the response sent. *)
Definition full_dispatch_request (rules : list rule) (req : request) (w : world)
    : response * world :=
  let '(r, w') := respond (dispatch_request rules req) w in
  (finalize req r, w').

End flask.

Import flask.

(** ** The Account record layer ([service.models]) *)

Module Account.

(** Modelled from the spec: [Account()], a record with no field set. *)
Definition new : account :=
  {| id := None; name := JNull; email := JNull; address := JNull;
     phone_number := JNull; date_joined := JNull |}.

(** Modelled from the spec: [serialize()] "produces a JSON-compatible
    mapping of all fields, with [date_joined] rendered as an ISO date
    string" (section 4.2; shape in section 6). *)
Definition serialize (a : account) : json :=
  JObj {[ "id" := from_option JNum JNull (id a);
          "name" := name a;
          "email" := email a;
          "address" := address a;
          "phone_number" := phone_number a;
          "date_joined" := date_joined a ]}.

(** Modelled from the spec: [deserialize(payload)] "validates [payload] is
    a mapping containing at least [name] and [email]; assigns fields onto
    an in-memory record; fails with a data-validation error when payload
    is malformed or missing required keys; must never accept a
    client-supplied [id]" (section 4.2). [date_joined] "defaults to
    creation date" (section 3); [phone_number] may be null (section 6). *)
Definition deserialize (a : account) (payload : json) : M account :=
  match payload with
  | JObj d =>
      match d !! "name", d !! "email" with
      | Some n, Some e =>
          t ← gets today;
          mret {| id := id a;
                  name := n;
                  email := e;
                  address := default JNull (d !! "address");
                  phone_number := default JNull (d !! "phone_number");
                  date_joined := default (JStr t) (d !! "date_joined") |}
      | None, _ => raise (DataValidationError "Invalid Account: missing name")
      | _, None => raise (DataValidationError "Invalid Account: missing email")
      end
  | _ => raise (DataValidationError "Invalid Account: body of request contained bad or no data")
  end.

(** Modelled from the spec: the record once the store has assigned it the
    id [k]; no other field changes. *)
Definition with_id (k : Z) (a : account) : account :=
  {| id := Some k; name := name a; email := email a; address := address a;
     phone_number := phone_number a; date_joined := date_joined a |}.

(** Modelled from the spec: the row filter of a query by id. *)
Definition has_id (k : Z) (a : account) : bool := bool_decide (id a = Some k).

(** Modelled from the spec: [create()] "inserts the in-memory record into
    the store, obtaining a store-assigned [id]" (section 4.2). The store
    is taken to be reachable; connectivity failures are outside the
    model. *)
Definition create (a : account) : M account :=
  s ← gets db;
  let a' := with_id (next_id s) a in
  modify (set_db {| rows := rows s ++ [a']; next_id := next_id s + 1 |});;
  mret a'.

(** Modelled from the spec: [update()] "persists in-place changes to an
    existing record identified by its [id]; fails if the record no longer
    exists" (section 4.2). *)
Definition update (a : account) : M unit :=
  s ← gets db;
  match id a with
  | Some k =>
      if existsb (has_id k) (rows s)
      then modify (set_db {| rows := (λ r, if has_id k r then a else r) <$> rows s;
                             next_id := next_id s |})
      else raise (StoreError "Update of a record that no longer exists")
  | None => raise (StoreError "Update called with empty ID field")
  end.

(** Modelled from the spec: the record of the store that matches an id, if
    there is one. *)
Definition lookup (k : Z) (s : store) : option account :=
  List.find (has_id k) (rows s).

(** Modelled from the spec: [find(id)] "returns the record matching [id],
    or an absent/null result if none exists (never raises for not found)"
    (section 4.2). *)
Definition find (k : Z) : M (option account) :=
  s ← gets db;
  mret (lookup k s).

(** Modelled from the spec: [all()] "returns every record currently
    stored, as a sequence" (section 4.2). *)
Definition all : M (list account) :=
  s ← gets db;
  mret (rows s).

End Account.

(** ** The handlers of [service/routes.py] *)

Module routes.

(** Python truthiness of an optional string: [None] and [""] are falsy. *)
Definition truthy (o : option string) : bool :=
  match o with
  | Some s => negb (String.eqb s "")
  | None => false
  end.

(** Checks that the media type is correct. *)
Definition check_content_type (req : request) (media_type : string) : M unit :=
  let content_type := headers req !! "Content-Type" in
  if truthy content_type && bool_decide (content_type = Some media_type)
  then mret tt
  else
    logger_error ("Invalid Content-Type: " +:+ str_opt content_type);;
    abort status.HTTP_415_UNSUPPORTED_MEDIA_TYPE
          ("Content-Type must be " +:+ media_type).

(** Health Status *)
Definition health : M response :=
  mret (with_status (jsonify (JObj {[ "status" := JStr "OK" ]})) status.HTTP_200_OK).

(** Root URL response *)
Definition index : M response :=
  mret (with_status (jsonify (JObj {[ "name" := JStr "Account REST API Service";
                                      "version" := JStr "1.0" ]}))
                     status.HTTP_200_OK).

(** Creates an Account from the data in the body that is posted. *)
Definition create_accounts (req : request) : M response :=
  logger_info "Request to create an Account";;
  check_content_type req "application/json";;
  let account := Account.new in
  payload ← get_json req;
  account ← Account.deserialize account payload;
  account ← Account.create account;
  let message := Account.serialize account in
  let location_url := "/" in
  mret (make_response (jsonify message) status.HTTP_201_CREATED
                      [("Location", location_url)]).

(** List accounts *)
Definition list_accounts : M response :=
  account_list ← Account.all;
  let accounts_list := Account.serialize <$> account_list in
  let num_accounts := length accounts_list in
  logger_info ("returning " +:+ str_int (Z.of_nat num_accounts) +:+ " accounts in list.");;
  mret (with_status (jsonify (JArr accounts_list)) status.HTTP_200_OK).

(** Reads one account *)
Definition get_accounts (account_id : Z) : M response :=
  find_account ← Account.find account_id;
  match find_account with
  | None => abort status.HTTP_404_NOT_FOUND "Account was not found."
  | Some find_account =>
      mret (with_status (jsonify (Account.serialize find_account)) status.HTTP_200_OK)
  end.

(** Update an account *)
Definition update_accounts (account_id : Z) (req : request) : M response :=
  find_account ← Account.find account_id;
  match find_account with
  | None => abort status.HTTP_404_NOT_FOUND "Account not found"
  | Some find_account =>
      payload ← get_json req;
      find_account ← Account.deserialize find_account payload;
      Account.update find_account;;
      mret (with_status (jsonify (Account.serialize find_account)) status.HTTP_200_OK)
  end.

(** The route table, one rule per [@app.route] decorator, in the order of
    the file; a decorator that lists no methods registers [GET]. No rule
    is registered for [DELETE]. *)
Definition url_map : list rule :=
  [ Rule "/health" ["GET"] "health" (λ _, health);
    Rule "/" ["GET"] "index" (λ _, index);
    Rule "/accounts" ["POST"] "create_accounts" create_accounts;
    Rule "/accounts" ["GET"] "list_accounts" (λ _, list_accounts);
    RuleInt "/accounts/" ["GET"] "get_accounts" (λ account_id _, get_accounts account_id);
    RuleInt "/accounts/" ["PUT"] "update_accounts" update_accounts ].

(** What [url_for("get_accounts", account_id=k)] names: the path of the
    read-by-id route. *)
Definition account_url (k : Z) : string := "/accounts/" +:+ str_int k.

End routes.

Import routes.

(** The application: one request against the route table. *)
Definition app (req : request) (w : world) : response * world :=
  full_dispatch_request url_map req w.

(** The id a path of the form [/accounts/<int>] carries. *)
Definition account_path (p : string) : option Z :=
  rest ← strip_prefix "/accounts/" p;
  int_converter rest.

(** The endpoint a request is routed to, if any. *)
Definition endpoint_of (meth p : string) : option string :=
  match match_request url_map meth p false with
  | Matched r _ => Some (rule_endpoint r)
  | _ => None
  end.

(** The attributes a client supplies. *)
Definition account_fields : list string :=
  ["name"; "email"; "address"; "phone_number"; "date_joined"].

(** ** Consistency of the store

    Every row carries a positive id below the counter, and no id occurs
    twice. *)
Definition row_ok (n : Z) (a : account) : bool :=
  match id a with
  | Some k => (0 <? k) && (k <? n)
  | None => false
  end.

Definition store_ok (s : store) : bool :=
  (0 <? next_id s) && forallb (row_ok (next_id s)) (rows s)
  && bool_decide (NoDup (id <$> rows s)).

(** Is a path served by some rule, and is a method served on it. *)
Definition path_defined (p : string) : bool :=
  existsb (λ r, bool_decide (is_Some (match_rule r p))) url_map.

Definition method_mapped (meth p : string) : bool :=
  existsb (λ r, bool_decide (is_Some (match_rule r p))
                && bool_decide (meth ∈ allowed_methods r)) url_map.

(** Does a payload pass the validation of [deserialize]. *)
Definition valid_payload (payload : json) : bool :=
  match payload with
  | JObj d => bool_decide (is_Some (d !! "name")) && bool_decide (is_Some (d !! "email"))
  | _ => false
  end.

(** A bare [GET] request, and the number of accounts [GET /accounts]
    reports. *)
Definition get_request (p : string) : request :=
  {| method := "GET"; path := p; headers := ∅; json_body := JNull |}.

Definition account_count (w : world) : option nat :=
  match data (app (get_request "/accounts") w).1 with
  | Some (JArr l) => Some (length l)
  | _ => None
  end.

(** The record a valid payload gives rise to once the store has given it
    the next id. *)
Definition created (w : world) (d : gmap string json) (n e : json) : account :=
  {| id := Some (next_id (db w)); name := n; email := e;
     address := default JNull (d !! "address");
     phone_number := default JNull (d !! "phone_number");
     date_joined := default (JStr (today w)) (d !! "date_joined") |}.

(** The record an update payload leaves under id [k]. *)
Definition updated (w : world) (k : Z) (d : gmap string json) (n e : json) : account :=
  {| id := Some k; name := n; email := e;
     address := default JNull (d !! "address");
     phone_number := default JNull (d !! "phone_number");
     date_joined := default (JStr (today w)) (d !! "date_joined") |}.

(** The rows after the record with id [k] has been replaced by [a]. *)
Definition replace_row (k : Z) (a : account) (l : list account) : list account :=
  (λ r, if Account.has_id k r then a else r) <$> l.

(** The same request with other headers. *)
Definition with_headers (hs : gmap string string) (req : request) : request :=
  {| method := method req; path := path req; headers := hs; json_body := json_body req |}.

(** ** Sample data

    A store holding one account, and requests against it. *)

Definition sample_world : world :=
  {| db := {| rows := [ {| id := Some 1; name := JStr "Ada"; email := JStr "ada@example.org";
                           address := JStr "1 Main St"; phone_number := JNull;
                           date_joined := JStr "2023-05-17" |} ];
              next_id := 2 |};
     log := [];
     today := "2024-02-29";
     on_non_json := RaisesUnsupportedMediaType |}.

Definition sample_payload : gmap string json :=
  {[ "name" := JStr "Bob"; "email" := JStr "bob@example.org";
     "address" := JStr "2 Side St"; "phone_number" := JStr "555-0100";
     "date_joined" := JStr "2024-01-31" ]}.

Definition sample_post : request :=
  {| method := "POST"; path := "/accounts";
     headers := {[ "Content-Type" := "application/json" ]};
     json_body := JObj sample_payload |}.

Definition bad_post : request :=
  {| method := "POST"; path := "/accounts";
     headers := {[ "Content-Type" := "application/json" ]};
     json_body := JObj {[ "name" := JStr "not enough data" ]} |}.

Definition html_post : request :=
  {| method := "POST"; path := "/accounts";
     headers := {[ "Content-Type" := "test/html" ]};
     json_body := JObj sample_payload |}.

Definition sample_put : request :=
  {| method := "PUT"; path := "/accounts/1"; headers := ∅;
     json_body := JObj sample_payload |}.

Definition delete_request (p : string) : request :=
  {| method := "DELETE"; path := p; headers := ∅; json_body := JNull |}.





(** ** Comparing JSON values

    Python's [==] on parsed JSON: structural equality. *)
Fixpoint json_eq_dec (a b : json) : Decision (a = b).
Proof.
  refine (let _ : EqDecision json := json_eq_dec in
    match a, b with
    | JNull, JNull => left _
    | JBool x, JBool y => cast_if (decide (x = y))
    | JNum x, JNum y => cast_if (decide (x = y))
    | JStr x, JStr y => cast_if (decide (x = y))
    | JArr x, JArr y => cast_if (decide (x = y))
    | JObj x, JObj y => cast_if (decide (x = y))
    | _, _ => right _
    end); abstract congruence.
Defined.

#[export] Instance json_eqdec : EqDecision json := json_eq_dec.

(** A request by its four parts, for statements over all requests of one
    method. *)
Definition put_request (p : string) (hs : gmap string string) (body : json) : request :=
  {| method := "PUT"; path := p; headers := hs; json_body := body |}.

(** ** What one request can do

    Every answer of the application falls in one of these cases, each with
    its status and the world it leaves. *)
Inductive outcome (req : request) (w : world) : Z → world → Prop :=
  | out_unchanged (code : Z) :
      code ∈ [200; 404; 405] → outcome req w code w
  | out_list (msg : string) :
      outcome req w 200 (add_log (LogRecord "INFO" msg) w)
  | out_create_415 (msg : string) :
      method req = "POST" → path req = "/accounts" →
      headers req !! "Content-Type" ≠ Some "application/json" →
      outcome req w 415
        (add_log (LogRecord "ERROR" msg)
           (add_log (LogRecord "INFO" "Request to create an Account") w))
  | out_create_400 :
      method req = "POST" → path req = "/accounts" →
      valid_payload (json_body req) = false →
      outcome req w 400 (add_log (LogRecord "INFO" "Request to create an Account") w)
  | out_create_201 (d : gmap string json) (n e : json) :
      method req = "POST" → path req = "/accounts" →
      json_body req = JObj d → d !! "name" = Some n → d !! "email" = Some e →
      outcome req w 201
        {| db := {| rows := rows (db w) ++ [created w d n e];
                    next_id := next_id (db w) + 1 |};
           log := log w ++ [LogRecord "INFO" "Request to create an Account"];
           today := today w; on_non_json := on_non_json w |}
  | out_update_400 (k : Z) (old : account) :
      method req = "PUT" → account_path (path req) = Some k →
      Account.lookup k (db w) = Some old →
      is_json req = true →
      valid_payload (json_body req) = false →
      outcome req w 400 w
  | out_update_refused (k : Z) (old : account) (code : Z) :
      method req = "PUT" → account_path (path req) = Some k →
      Account.lookup k (db w) = Some old →
      is_json req = false →
      code ∈ [400; 415] →
      (code = 415 → on_non_json w = RaisesUnsupportedMediaType) →
      outcome req w code w
  | out_update_200 (k : Z) (old : account) (d : gmap string json) (n e : json) :
      method req = "PUT" → account_path (path req) = Some k →
      Account.lookup k (db w) = Some old →
      is_json req = true →
      json_body req = JObj d → d !! "name" = Some n → d !! "email" = Some e →
      outcome req w 200
        (set_db {| rows := replace_row k (updated w k d n e) (rows (db w));
                   next_id := next_id (db w) |} w).

(** Serving requests one after the other: the answers, and the world the
    last one leaves. *)
Fixpoint serve (reqs : list request) (w : world) : list response * world :=
  match reqs with
  | [] => ([], w)
  | req :: reqs' =>
      let '(resp, w') := app req w in
      let '(resps, w'') := serve reqs' w' in
      (resp :: resps, w'')
  end.

(** ** The test suite of [tests/test_routes.py]

    A test reads and changes the world through the test client and either
    finishes or stops at the first error. [tests.factories] is not among
    the sources: the accounts [AccountFactory()] produces are parameters of
    the tests. *)

Module test_routes.

Inductive test_error :=
  | AssertionError
  | KeyError (key : string)
  | TypeError
  | IndexError
  | NotModelled.

Definition T (A : Type) : Type := world → test_error + A * world.

Definition T_ret {A} (a : A) : T A := λ w, inr (a, w).

Definition T_bind {A B} (m : T A) (k : A → T B) : T B :=
  λ w, match m w with
       | inr (a, w') => k a w'
       | inl e => inl e
       end.

Definition fail {A} (e : test_error) : T A := λ _, inl e.

#[global] Instance T_mret : MRet T := @T_ret.
#[global] Instance T_mbind : MBind T := λ A B k m, T_bind m k.

Definition BASE_URL : string := "/accounts".

(** *** [unittest] assertions *)

Definition assertEqual {A} `{EqDecision A} (first second : A) : T unit :=
  if decide (first = second) then mret tt else fail AssertionError.

Definition assertIsNotNone {A} (obj : option A) : T unit :=
  match obj with
  | Some _ => mret tt
  | None => fail AssertionError
  end.

(** *** The test client

    [self.client.open]: the application serves the request. A [json=]
    argument is the body and sets the Content-Type to application/json
    unless a [content_type=] argument says otherwise. *)

Definition client_open (req : request) : T response :=
  λ w, inr (app req w).

Definition client_post (url : string) (json : json) (content_type : option string)
    : T response :=
  client_open {| method := "POST"; path := url;
                 headers := {[ "Content-Type" := default "application/json" content_type ]};
                 json_body := json |}.

Definition client_put (url : string) (json : json) : T response :=
  client_open {| method := "PUT"; path := url;
                 headers := {[ "Content-Type" := "application/json" ]};
                 json_body := json |}.

Definition client_get (url : string) (content_type : option string) : T response :=
  client_open {| method := "GET"; path := url;
                 headers := match content_type with
                            | Some ct => {[ "Content-Type" := ct ]}
                            | None => ∅
                            end;
                 json_body := JNull |}.

Definition client_delete (url : string) : T response :=
  client_open {| method := "DELETE"; path := url; headers := ∅; json_body := JNull |}.

(** [response.get_json()] *)
Definition response_json (r : response) : json := default JNull (data r).

(** *** Python operations on parsed JSON *)

(** [obj[key]] with a string key *)
Definition getitem (obj : json) (key : string) : T json :=
  match obj with
  | JObj d =>
      match d !! key with
      | Some v => mret v
      | None => fail (KeyError key)
      end
  | _ => fail TypeError
  end.

(** [obj[key] = value] with a string key *)
Definition setitem (obj : json) (key : string) (value : json) : T json :=
  match obj with
  | JObj d => mret (JObj (<[key := value]> d))
  | _ => fail TypeError
  end.

(** [len(obj)] *)
Definition len (obj : json) : T nat :=
  match obj with
  | JArr l => mret (length l)
  | JObj d => mret (size d)
  | JStr s => mret (String.length s)
  | _ => fail TypeError
  end.

(** [l[i]] on a Python list *)
Definition list_getitem {A} (l : list A) (i : nat) : T A :=
  match l !! i with
  | Some x => mret x
  | None => fail IndexError
  end.

(** The text an f-string gives for a scalar; the rendering of lists and
    dicts is left out. *)
Definition format (v : json) : T string :=
  match v with
  | JNull => mret "None"
  | JBool true => mret "True"
  | JBool false => mret "False"
  | JNum n => mret (str_int n)
  | JStr s => mret s
  | _ => fail NotModelled
  end.

(** [account.id = value]: the record holds an integer id or none. *)
Definition set_id (value : json) (a : account) : T account :=
  match value with
  | JNum k => mret (Account.with_id k a)
  | JNull => mret {| id := None; name := name a; email := email a; address := address a;
                     phone_number := phone_number a; date_joined := date_joined a |}
  | _ => fail NotModelled
  end.

(** [account.id] as JSON, and [str(account.date_joined)] for a date held
    by its ISO rendering. *)
Definition id_json (a : account) : json := from_option JNum JNull (id a).

Definition str_date (d : json) : T json :=
  match d with
  | JStr s => mret (JStr s)
  | JNull => mret (JStr "None")
  | _ => fail NotModelled
  end.

(** *** Fixtures *)

(** Runs before each test: every stored account is deleted; the id
    counter of the store is not reset. *)
Definition setUp : T unit :=
  λ w, inr (tt, set_db {| rows := []; next_id := next_id (db w) |} w).

(** Runs after each test: the session is released. *)
Definition tearDown : T unit := mret tt.

(** One test case: [setUp], the test, [tearDown]. *)
Definition run_test (test : T unit) : T unit :=
  setUp;; test;; tearDown.

(** Factory method to create accounts in bulk. [factory i] is the account
    the i-th call of [AccountFactory()] produces. *)
Fixpoint _create_accounts_loop (factory : nat → account) (i count : nat)
    (accounts : list account) : T (list account) :=
  match count with
  | O => mret accounts
  | S count' =>
      let account := factory i in
      response ← client_post BASE_URL (Account.serialize account) None;
      assertEqual (status_code response) status.HTTP_201_CREATED;;
      let new_account := response_json response in
      new_id ← getitem new_account "id";
      account ← set_id new_id account;
      _create_accounts_loop factory (S i) count' (accounts ++ [account])
  end.

Definition _create_accounts (factory : nat → account) (count : nat) : T (list account) :=
  _create_accounts_loop factory 0 count [].

(** *** Test cases *)

(** It should get 200_OK from the Home Page *)
Definition test_index : T unit :=
  response ← client_get "/" None;
  assertEqual (status_code response) status.HTTP_200_OK.

(** It should be healthy *)
Definition test_health : T unit :=
  resp ← client_get "/health" None;
  assertEqual (status_code resp) 200;;
  let data := response_json resp in
  v ← getitem data "status";
  assertEqual v (JStr "OK").

(** It should Create a new Account *)
Definition test_create_account (account : account) : T unit :=
  response ← client_post BASE_URL (Account.serialize account) (Some "application/json");
  assertEqual (status_code response) status.HTTP_201_CREATED;;
  let location := header "Location" response in
  assertIsNotNone location;;
  let new_account := response_json response in
  v ← getitem new_account "name";
  assertEqual v (name account);;
  v ← getitem new_account "email";
  assertEqual v (email account);;
  v ← getitem new_account "address";
  assertEqual v (address account);;
  v ← getitem new_account "phone_number";
  assertEqual v (phone_number account);;
  v ← getitem new_account "date_joined";
  s ← str_date (date_joined account);
  assertEqual v s.

(** It should not Create an Account when sending the wrong data *)
Definition test_bad_request : T unit :=
  response ← client_post BASE_URL (JObj {[ "name" := JStr "not enough data" ]}) None;
  assertEqual (status_code response) status.HTTP_400_BAD_REQUEST.

(** It should not Create an Account when sending the wrong media type *)
Definition test_unsupported_media_type (account : account) : T unit :=
  response ← client_post BASE_URL (Account.serialize account) (Some "test/html");
  assertEqual (status_code response) status.HTTP_415_UNSUPPORTED_MEDIA_TYPE.

(** Should read one account *)
Definition test_read_an_account (factory : nat → account) : T unit :=
  accounts ← _create_accounts factory 1;
  account ← list_getitem accounts 0;
  account_id ← format (id_json account);
  response ← client_get (BASE_URL +:+ "/" +:+ account_id) (Some "application/json");
  assertEqual (status_code response) status.HTTP_200_OK;;
  let response_data := response_json response in
  v ← getitem response_data "name";
  assertEqual v (name account).

(** Should not read account that is not found *)
Definition test_get_account_not_found : T unit :=
  response ← client_get (BASE_URL +:+ "/0") None;
  assertEqual (status_code response) status.HTTP_404_NOT_FOUND.

(** Should get a list of accounts *)
Definition test_get_account_list (factory : nat → account) : T unit :=
  _create_accounts factory 5;;
  response ← client_get BASE_URL None;
  assertEqual (status_code response) status.HTTP_200_OK;;
  let data_response := response_json response in
  n ← len data_response;
  assertEqual n 5%nat.

(** Should update an account *)
Definition test_update_account (test_account : account) : T unit :=
  response ← client_post BASE_URL (Account.serialize test_account) None;
  assertEqual (status_code response) status.HTTP_201_CREATED;;
  let new_account := response_json response in
  new_account ← setitem new_account "name" (JStr "Super Sonic");
  new_id ← getitem new_account "id";
  new_id ← format new_id;
  response ← client_put (BASE_URL +:+ "/" +:+ new_id) new_account;
  assertEqual (status_code response) status.HTTP_200_OK;;
  let updated_account := response_json response in
  v ← getitem updated_account "name";
  assertEqual v (JStr "Super Sonic").

(** Should Delete Account *)
Definition test_delete_account (factory : nat → account) : T unit :=
  accounts ← _create_accounts factory 1;
  create_account ← list_getitem accounts 0;
  account_id ← format (id_json create_account);
  response ← client_delete (BASE_URL +:+ "/" +:+ account_id);
  assertEqual (status_code response) status.HTTP_204_NO_CONTENT.

(** It should not allow an illegal method call *)
Definition test_method_not_allowed : T unit :=
  response ← client_delete BASE_URL;
  assertEqual (status_code response) status.HTTP_405_METHOD_NOT_ALLOWED.

End test_routes.

(** The accounts a factory produces, numbered from [k] on: what the store
    makes of [count] creations in a row. *)
Fixpoint numbered (factory : nat → account) (i count : nat) (k : Z) : list account :=
  match count with
  | O => []
  | S count' => Account.with_id k (factory i) :: numbered factory (S i) count' (k + 1)
  end.

(** A factory account for the examples. *)
Definition sample_account : account :=
  {| id := Some 7; name := JStr "Cy"; email := JStr "cy@example.org";
     address := JStr "3 Back Rd"; phone_number := JStr "555-0101";
     date_joined := JStr "2022-11-05" |}.

(** * Properties *)

(** ** Evaluating handler computations *)

(** One step of a handler: expose the first bind. *)
Ltac step := unfold mbind at 1, M_bind, bind.

(** Closes a goal from a hypothesis placing a method in a list of other
    methods. *)
Ltac absurd_member H :=
  by repeat (apply elem_of_cons in H as [?|H]; [done|]); apply elem_of_nil in H.

Lemma is_json_exact (req : request) :
  headers req !! "Content-Type" = Some "application/json" → is_json req = true.
Proof. intros H. unfold is_json, mimetype. by rewrite H. Qed.


Lemma get_json_is_json (req : request) (w : world) :
  is_json req = true → get_json req w = (inr (json_body req), w).
Proof. intros H. unfold get_json. by rewrite H. Qed.

Lemma get_json_not_json (req : request) (w : world) :
  is_json req = false →
  get_json req w =
    match on_non_json w with
    | ReturnsNone => (inr JNull, w)
    | RaisesBadRequest =>
        (inl (HTTPException status.HTTP_400_BAD_REQUEST
                "Did not attempt to load JSON data because the request Content-Type was not 'application/json'."), w)
    | RaisesUnsupportedMediaType =>
        (inl (HTTPException status.HTTP_415_UNSUPPORTED_MEDIA_TYPE
                "Did not attempt to load JSON data because the request Content-Type was not 'application/json'."), w)
    end.
Proof.
  intros H. unfold get_json. rewrite H. step. cbn [gets].
  by destruct (on_non_json w).
Qed.

Lemma strip_prefix_Some (pre p rest : string) :
  strip_prefix pre p = Some rest → p = pre +:+ rest.
Proof.
  revert p. induction pre as [|c pre IH]; intros p; simpl; [by intros [= ->]|].
  destruct p as [|c' p]; [done|].
  destruct (Ascii.eqb_spec c c') as [->|]; [|congruence].
  intros H. change (String c' p = String c' (pre +:+ rest)). f_equal. by apply IH.
Qed.

Lemma strip_prefix_app (pre rest : string) :
  strip_prefix pre (pre +:+ rest) = Some rest.
Proof.
  induction pre as [|c pre IH]; [done|].
  change (strip_prefix (String c pre) (String c (pre +:+ rest)) = Some rest).
  simpl. by rewrite Ascii.eqb_refl.
Qed.

Lemma account_path_inv (p : string) (k : Z) :
  account_path p = Some k →
  ∃ rest, p = "/accounts/" +:+ rest ∧ int_converter rest = Some k.
Proof.
  unfold account_path. destruct (strip_prefix _ p) as [rest|] eqn:E; [|done].
  simpl. intros H. exists rest. split; [|done]. by apply strip_prefix_Some.
Qed.

Lemma match_rule_int (pre : string) ms e v (rest : string) :
  match_rule (RuleInt pre ms e v) (pre +:+ rest) = v <$> int_converter rest.
Proof.
  cbn [match_rule]. rewrite strip_prefix_app. simpl.
  by destruct (int_converter rest).
Qed.

Lemma eqb_accounts_prefix (pat rest : string) :
  pat ∈ ["/health"; "/"; "/accounts"] →
  String.eqb pat ("/accounts/" +:+ rest) = false.
Proof.
  intros H. cbv [String.append].
  repeat (apply elem_of_cons in H as [->|H]; [reflexivity|]).
  by apply elem_of_nil in H.
Qed.

Lemma match_account_path (meth p : string) (k : Z) :
  account_path p = Some k →
  match_request url_map meth p false =
    if bool_decide (meth ∈ ["GET"; "HEAD"; "OPTIONS"])
    then Matched (RuleInt "/accounts/" ["GET"] "get_accounts"
                    (λ account_id _, get_accounts account_id))
                 (λ _, get_accounts k)
    else if bool_decide (meth ∈ ["PUT"; "OPTIONS"])
    then Matched (RuleInt "/accounts/" ["PUT"] "update_accounts" update_accounts)
                 (update_accounts k)
    else MethodNotAllowed.
Proof.
  intros (rest & -> & Hk)%account_path_inv.
  unfold url_map. cbn [match_request].
  rewrite !match_rule_int, Hk.
  cbn [match_rule].
  rewrite !eqb_accounts_prefix by (repeat first [by left | right]).
  reflexivity.
Qed.

Lemma match_post_accounts :
  match_request url_map "POST" "/accounts" false
  = Matched (Rule "/accounts" ["POST"] "create_accounts" create_accounts) create_accounts.
Proof. reflexivity. Qed.

Lemma match_get_accounts :
  match_request url_map "GET" "/accounts" false
  = Matched (Rule "/accounts" ["GET"] "list_accounts" (λ _, list_accounts)) (λ _, list_accounts).
Proof. reflexivity. Qed.

Lemma finalize_not_head (req : request) (r : response) :
  method req ≠ "HEAD" → finalize req r = r.
Proof.
  intros H. unfold finalize.
  destruct (String.eqb_spec (method req) "HEAD"); [done|reflexivity].
Qed.

Lemma full_dispatch_matched (req : request) (w : world) r view :
  match_request url_map (method req) (path req) false = Matched r view →
  method req ≠ "HEAD" → method req ≠ "OPTIONS" →
  app req w = respond (view req) w.
Proof.
  intros Hm Hh Ho. unfold app, full_dispatch_request, dispatch_request.
  rewrite Hm. destruct (String.eqb_spec (method req) "OPTIONS"); [done|].
  cbn [andb]. destruct (respond (view req) w) as [resp w'].
  by rewrite finalize_not_head.
Qed.

Lemma app_post_accounts (req : request) (w : world) :
  method req = "POST" → path req = "/accounts" →
  app req w = respond (create_accounts req) w.
Proof.
  intros Hm Hp. apply full_dispatch_matched with (r := Rule "/accounts" ["POST"] "create_accounts" create_accounts).
  - rewrite Hm, Hp. apply match_post_accounts.
  - by rewrite Hm.
  - by rewrite Hm.
Qed.

Lemma app_get_accounts (req : request) (w : world) :
  method req = "GET" → path req = "/accounts" →
  app req w = respond list_accounts w.
Proof.
  intros Hm Hp.
  apply (full_dispatch_matched req w (Rule "/accounts" ["GET"] "list_accounts" (λ _, list_accounts)) (λ _, list_accounts)).
  - rewrite Hm, Hp. apply match_get_accounts.
  - by rewrite Hm.
  - by rewrite Hm.
Qed.

Lemma app_get_account (req : request) (w : world) (k : Z) :
  method req = "GET" → account_path (path req) = Some k →
  app req w = respond (get_accounts k) w.
Proof.
  intros Hm Hp.
  apply (full_dispatch_matched req w
           (RuleInt "/accounts/" ["GET"] "get_accounts" (λ account_id _, get_accounts account_id))
           (λ _, get_accounts k)).
  - rewrite Hm. by rewrite (match_account_path _ _ k).
  - by rewrite Hm.
  - by rewrite Hm.
Qed.

Lemma app_put_account (req : request) (w : world) (k : Z) :
  method req = "PUT" → account_path (path req) = Some k →
  app req w = respond (update_accounts k req) w.
Proof.
  intros Hm Hp.
  apply (full_dispatch_matched req w
           (RuleInt "/accounts/" ["PUT"] "update_accounts" update_accounts)).
  - rewrite Hm. by rewrite (match_account_path _ _ k).
  - by rewrite Hm.
  - by rewrite Hm.
Qed.

(** ** The record layer on a consistent store *)

Lemma store_ok_next_id (s : store) : store_ok s = true → 0 < next_id s.
Proof. unfold store_ok. rewrite !andb_true_iff. intros [[H _] _]. lia. Qed.

Lemma store_ok_row (s : store) (a : account) :
  store_ok s = true → a ∈ rows s →
  ∃ k, id a = Some k ∧ 0 < k < next_id s.
Proof.
  unfold store_ok. rewrite !andb_true_iff. intros [[_ H] _] Ha.
  rewrite forallb_forall in H. apply list_elem_of_In, H in Ha.
  unfold row_ok in Ha. destruct (id a) as [k|]; [|done].
  exists k. split; [done|]. apply andb_true_iff in Ha. lia.
Qed.

Lemma deserialize_ok (a : account) (d : gmap string json) (n e : json) (w : world) :
  d !! "name" = Some n → d !! "email" = Some e →
  Account.deserialize a (JObj d) w =
    (inr {| id := id a; name := n; email := e;
            address := default JNull (d !! "address");
            phone_number := default JNull (d !! "phone_number");
            date_joined := default (JStr (today w)) (d !! "date_joined") |}, w).
Proof. intros Hn He. unfold Account.deserialize. by rewrite Hn, He. Qed.

Lemma deserialize_invalid (a : account) (payload : json) (w : world) :
  match payload with
  | JObj d => d !! "name" = None ∨ d !! "email" = None
  | _ => True
  end →
  ∃ msg, Account.deserialize a payload w = (inl (DataValidationError msg), w).
Proof.
  destruct payload as [| | | | |d]; try (intros _; by eexists).
  unfold Account.deserialize.
  intros [->| ->]; [by eexists|].
  destruct (d !! "name"); by eexists.
Qed.

Lemma check_content_type_ok (req : request) (media_type : string) (w : world) :
  media_type ≠ "" →
  headers req !! "Content-Type" = Some media_type →
  check_content_type req media_type w = (inr tt, w).
Proof.
  intros Hne H. unfold check_content_type. rewrite H. cbn [truthy].
  destruct (String.eqb_spec media_type ""); [done|].
  by rewrite bool_decide_eq_true_2.
Qed.

Lemma check_content_type_fail (req : request) (media_type : string) (w : world) :
  headers req !! "Content-Type" ≠ Some media_type →
  ∃ msg w', check_content_type req media_type w
    = (inl (HTTPException status.HTTP_415_UNSUPPORTED_MEDIA_TYPE msg), w')
    ∧ db w' = db w.
Proof.
  intros H. unfold check_content_type.
  rewrite (bool_decide_eq_false_2 _ H), andb_false_r.
  by do 2 eexists.
Qed.

(** ** Creating accounts *)

Lemma create_accounts_ok (req : request) (w : world) (d : gmap string json) (n e : json) :
  headers req !! "Content-Type" = Some "application/json" →
  json_body req = JObj d → d !! "name" = Some n → d !! "email" = Some e →
  create_accounts req w =
    (inr (make_response (jsonify (Account.serialize (created w d n e)))
            status.HTTP_201_CREATED
            [("Location", "/")]),
     {| db := {| rows := rows (db w) ++ [created w d n e]; next_id := next_id (db w) + 1 |};
        log := log w ++ [LogRecord "INFO" "Request to create an Account"];
        today := today w; on_non_json := on_non_json w |}).
Proof.
  intros Hct Hj Hn He. unfold create_accounts.
  step. cbn [logger_info modify].
  step.
  rewrite check_content_type_ok by done.
  step. rewrite get_json_is_json by (by apply is_json_exact).
  step.
  rewrite Hj, (deserialize_ok _ d n e) by done.
  reflexivity.
Qed.

Lemma serialize_lookup_id (a : account) (body : gmap string json) :
  Account.serialize a = JObj body → body !! "id" = Some (from_option JNum JNull (id a)).
Proof. intros [= <-]. reflexivity. Qed.

Lemma serialize_created_fields (k : option Z) (d : gmap string json) (n e : json) (t : string)
    (body : gmap string json) (f : string) (v : json) :
  d !! "name" = Some n → d !! "email" = Some e →
  Account.serialize
    {| id := k; name := n; email := e;
       address := default JNull (d !! "address");
       phone_number := default JNull (d !! "phone_number");
       date_joined := default (JStr t) (d !! "date_joined") |} = JObj body →
  f ∈ account_fields → d !! f = Some v → body !! f = Some v.
Proof.
  intros Hn He [= <-] Hf Hv. unfold account_fields in Hf.
  repeat (apply elem_of_cons in Hf as [->|Hf]);
    [..|by apply elem_of_nil in Hf]; cbn [name email address phone_number date_joined].
  - rewrite Hn in Hv. by injection Hv as ->.
  - rewrite He in Hv. by injection Hv as ->.
  - by rewrite Hv.
  - by rewrite Hv.
  - by rewrite Hv.
Qed.

(** C1. A POST to /accounts with Content-Type application/json and a payload
    that is a mapping with at least [name] and [email] is answered 201; for
    each of [name], [email], [address], [phone_number] and [date_joined]
    the body carries the value the payload gives it, and its [id] is a
    positive integer borne by no account stored before; the record answered
    is the one appended to the store. *)
Theorem create_accounts_valid_payload
    (w : world) (req : request) (d : gmap string json) (n e : json) :
  store_ok (db w) = true →
  method req = "POST" → path req = "/accounts" →
  headers req !! "Content-Type" = Some "application/json" →
  json_body req = JObj d →
  d !! "name" = Some n → d !! "email" = Some e →
  ∃ (k : Z) (a : account) (body : gmap string json),
    status_code (app req w).1 = 201 ∧
    data (app req w).1 = Some (JObj body) ∧
    (∀ f v, f ∈ account_fields → d !! f = Some v → body !! f = Some v) ∧
    body !! "id" = Some (JNum k) ∧
    0 < k ∧
    (∀ a', a' ∈ rows (db w) → id a' ≠ Some k) ∧
    Account.serialize a = JObj body ∧
    rows (db (app req w).2) = rows (db w) ++ [a].
Proof.
  intros Hok Hm Hp Hct Hj Hn He.
  rewrite app_post_accounts by done. unfold respond.
  rewrite (create_accounts_ok req w d n e) by done.
  destruct (Account.serialize (created w d n e)) as [| | | | |body] eqn:Hs; try done.
  exists (next_id (db w)), (created w d n e), body.
  cbn [fst snd status_code data make_response with_status jsonify db rows].
  repeat split; try done.
  - intros f v. by apply (serialize_created_fields (Some (next_id (db w))) d n e (today w)).
  - by apply serialize_lookup_id in Hs.
  - by apply store_ok_next_id.
  - intros a' Ha' Hid. destruct (store_ok_row _ _ Hok Ha') as (k & Hk & Hlt).
    rewrite Hk in Hid. injection Hid as ->. lia.
Qed.

Lemma create_accounts_valid_payload_witness :
  ∃ (k : Z) (a : account) (body : gmap string json),
    status_code (app sample_post sample_world).1 = 201 ∧
    data (app sample_post sample_world).1 = Some (JObj body) ∧
    (∀ f v, f ∈ account_fields → sample_payload !! f = Some v → body !! f = Some v) ∧
    body !! "id" = Some (JNum k) ∧
    0 < k ∧
    (∀ a', a' ∈ rows (db sample_world) → id a' ≠ Some k) ∧
    Account.serialize a = JObj body ∧
    rows (db (app sample_post sample_world).2) = rows (db sample_world) ++ [a].
Proof.
  apply (create_accounts_valid_payload sample_world sample_post sample_payload
           (JStr "Bob") (JStr "bob@example.org")); reflexivity.
Defined.

Lemma valid_payload_false (a : account) (payload : json) (w : world) :
  valid_payload payload = false →
  ∃ msg, Account.deserialize a payload w = (inl (DataValidationError msg), w).
Proof.
  intros H. apply deserialize_invalid.
  destruct payload as [| | | | |d]; try done.
  cbn [valid_payload] in H. apply andb_false_iff in H as [H|H];
    apply bool_decide_eq_false in H; [left|right];
    by apply eq_None_not_Some.
Qed.

Lemma list_accounts_eval (w : world) :
  ∃ msg, list_accounts w =
    (inr (with_status (jsonify (JArr (Account.serialize <$> rows (db w)))) status.HTTP_200_OK),
     add_log (LogRecord "INFO" msg) w).
Proof.
  eexists. unfold list_accounts, Account.all.
  unfold mbind, M_bind, bind, mret, M_ret, ret, gets, logger_info, modify.
  rewrite length_fmap. reflexivity.
Qed.

Lemma account_count_rows (w : world) :
  account_count w = Some (length (rows (db w))).
Proof.
  unfold account_count. rewrite app_get_accounts by done.
  destruct (list_accounts_eval w) as [msg H]. unfold respond. rewrite H.
  cbn [fst data with_status jsonify]. by rewrite length_fmap.
Qed.

Lemma create_accounts_invalid (req : request) (w : world) :
  headers req !! "Content-Type" = Some "application/json" →
  valid_payload (json_body req) = false →
  ∃ msg, create_accounts req w =
    (inl (DataValidationError msg),
     add_log (LogRecord "INFO" "Request to create an Account") w).
Proof.
  intros Hct Hv. unfold create_accounts.
  step. cbn [logger_info modify].
  step.
  rewrite check_content_type_ok by done.
  step. rewrite get_json_is_json by (by apply is_json_exact).
  step.
  destruct (valid_payload_false Account.new _
              (add_log (LogRecord "INFO" "Request to create an Account") w) Hv)
    as [msg ->].
  by exists msg.
Qed.

Lemma create_accounts_unsupported (req : request) (w : world) :
  headers req !! "Content-Type" ≠ Some "application/json" →
  ∃ msg w', create_accounts req w =
    (inl (HTTPException status.HTTP_415_UNSUPPORTED_MEDIA_TYPE msg), w')
    ∧ db w' = db w.
Proof.
  intros Hct. unfold create_accounts.
  step. cbn [logger_info modify].
  step.
  destruct (check_content_type_fail req "application/json"
              (add_log (LogRecord "INFO" "Request to create an Account") w) Hct)
    as (msg & w' & -> & Hdb).
  by exists msg, w'.
Qed.

(** C4. A POST to /accounts with Content-Type application/json whose payload
    is not a mapping, or lacks [name] or [email], is answered 400; the
    store is left as it was, and so is the number of accounts GET /accounts
    reports. *)
Theorem create_accounts_invalid_payload (w : world) (req : request) :
  method req = "POST" → path req = "/accounts" →
  headers req !! "Content-Type" = Some "application/json" →
  valid_payload (json_body req) = false →
  status_code (app req w).1 = 400 ∧
  db (app req w).2 = db w ∧
  account_count (app req w).2 = account_count w.
Proof.
  intros Hm Hp Hct Hv.
  assert (status_code (app req w).1 = 400 ∧ db (app req w).2 = db w) as [Hs Hdb].
  { rewrite app_post_accounts by done. unfold respond.
    by destruct (create_accounts_invalid req w Hct Hv) as [msg ->]. }
  by rewrite !account_count_rows, Hdb.
Qed.

Lemma create_accounts_invalid_payload_witness :
  status_code (app bad_post sample_world).1 = 400 ∧
  db (app bad_post sample_world).2 = db sample_world ∧
  account_count (app bad_post sample_world).2 = account_count sample_world.
Proof.
  apply (create_accounts_invalid_payload sample_world bad_post); reflexivity.
Defined.

(** C5. A POST to /accounts whose Content-Type header is absent or differs
    from "application/json" is answered 415 and the store is left as it
    was, whatever the body. *)
Theorem create_accounts_wrong_content_type (w : world) (req : request) :
  method req = "POST" → path req = "/accounts" →
  headers req !! "Content-Type" ≠ Some "application/json" →
  status_code (app req w).1 = 415 ∧ db (app req w).2 = db w.
Proof.
  intros Hm Hp Hct.
  rewrite app_post_accounts by done. unfold respond.
  by destruct (create_accounts_unsupported req w Hct) as (msg & w' & -> & Hdb).
Qed.

Lemma create_accounts_wrong_content_type_witness :
  status_code (app html_post sample_world).1 = 415 ∧
  db (app html_post sample_world).2 = db sample_world.
Proof.
  apply (create_accounts_wrong_content_type sample_world html_post);
    [reflexivity | reflexivity | vm_compute; discriminate].
Defined.

(** ** Reading and updating one account *)

Lemma lookup_Some (k : Z) (s : store) (a : account) :
  Account.lookup k s = Some a → a ∈ rows s ∧ id a = Some k.
Proof.
  unfold Account.lookup. intros [Hin Hid]%find_some. split.
  - by apply list_elem_of_In.
  - unfold Account.has_id in Hid. by apply bool_decide_eq_true in Hid.
Qed.

Lemma lookup_None (k : Z) (s : store) (a : account) :
  Account.lookup k s = None → a ∈ rows s → id a ≠ Some k.
Proof.
  unfold Account.lookup. intros Hnone Hin%list_elem_of_In.
  pose proof (find_none _ _ Hnone _ Hin) as H.
  unfold Account.has_id in H. by apply bool_decide_eq_false in H.
Qed.

Lemma find_never_raises (k : Z) (w : world) :
  Account.find k w = (inr (Account.lookup k (db w)), w).
Proof. reflexivity. Qed.

Lemma get_accounts_eval (k : Z) (w : world) :
  get_accounts k w =
    match Account.lookup k (db w) with
    | Some a => (inr (with_status (jsonify (Account.serialize a)) status.HTTP_200_OK), w)
    | None => (inl (HTTPException status.HTTP_404_NOT_FOUND "Account was not found."), w)
    end.
Proof.
  unfold get_accounts. step.
  rewrite find_never_raises. by destruct (Account.lookup k (db w)).
Qed.

Lemma find_replace_row (k : Z) (a : account) (l : list account) :
  Account.has_id k a = true →
  List.find (Account.has_id k) (replace_row k a l)
  = (λ _, a) <$> List.find (Account.has_id k) l.
Proof.
  intros Ha. induction l as [|r l IH]; [done|].
  cbn [replace_row fmap list_fmap List.find].
  destruct (Account.has_id k r) eqn:Hr.
  - by rewrite Ha.
  - rewrite Hr. apply IH.
Qed.

Lemma existsb_find_Some (k : Z) (l : list account) (a : account) :
  List.find (Account.has_id k) l = Some a → existsb (Account.has_id k) l = true.
Proof.
  intros [Hin Hid]%find_some. apply existsb_exists. by exists a.
Qed.

Lemma update_accounts_missing (k : Z) (req : request) (w : world) :
  Account.lookup k (db w) = None →
  update_accounts k req w
  = (inl (HTTPException status.HTTP_404_NOT_FOUND "Account not found"), w).
Proof.
  intros H. unfold update_accounts. step.
  by rewrite find_never_raises, H.
Qed.

Lemma valid_payload_true (payload : json) :
  valid_payload payload = true →
  ∃ d n e, payload = JObj d ∧ d !! "name" = Some n ∧ d !! "email" = Some e.
Proof.
  destruct payload as [| | | | |d]; try done. cbn [valid_payload].
  intros [[n Hn]%bool_decide_eq_true [e He]%bool_decide_eq_true]%andb_true_iff.
  by exists d, n, e.
Qed.

(** On an existing id the handler is: read the body, deserialize it onto
    the record found, update, serialize. *)
Lemma update_accounts_existing (k : Z) (req : request) (w : world) (old : account) :
  Account.lookup k (db w) = Some old →
  update_accounts k req w =
    (payload ← get_json req;
     find_account ← Account.deserialize old payload;
     Account.update find_account;;
     mret (with_status (jsonify (Account.serialize find_account)) status.HTTP_200_OK)) w.
Proof.
  intros Hl. unfold update_accounts. step.
  by rewrite find_never_raises, Hl.
Qed.

(** The same on a body that [get_json] hands over. *)
Lemma update_accounts_json (k : Z) (req : request) (w : world) (old : account) :
  Account.lookup k (db w) = Some old → is_json req = true →
  update_accounts k req w =
    (find_account ← Account.deserialize old (json_body req);
     Account.update find_account;;
     mret (with_status (jsonify (Account.serialize find_account)) status.HTTP_200_OK)) w.
Proof.
  intros Hl Hj. rewrite (update_accounts_existing k req w old Hl).
  step. by rewrite get_json_is_json.
Qed.

Lemma update_accounts_ok (k : Z) (req : request) (w : world) (old : account)
    (d : gmap string json) (n e : json) :
  Account.lookup k (db w) = Some old →
  is_json req = true →
  json_body req = JObj d → d !! "name" = Some n → d !! "email" = Some e →
  update_accounts k req w =
    (inr (with_status (jsonify (Account.serialize (updated w k d n e))) status.HTTP_200_OK),
     set_db {| rows := replace_row k (updated w k d n e) (rows (db w));
               next_id := next_id (db w) |} w).
Proof.
  intros Hl Hjs Hj Hn He. rewrite (update_accounts_json k req w old Hl Hjs).
  step.
  rewrite Hj, (deserialize_ok _ d n e) by done.
  destruct (lookup_Some _ _ _ Hl) as [_ Hid]. rewrite Hid.
  step. unfold Account.update.
  step. cbn [gets id].
  rewrite (existsb_find_Some k _ old) by done.
  reflexivity.
Qed.

Lemma update_accounts_invalid (k : Z) (req : request) (w : world) (old : account) :
  Account.lookup k (db w) = Some old →
  is_json req = true →
  valid_payload (json_body req) = false →
  ∃ msg, update_accounts k req w = (inl (DataValidationError msg), w).
Proof.
  intros Hl Hjs Hv. rewrite (update_accounts_json k req w old Hl Hjs).
  step.
  destruct (valid_payload_false old _ w Hv) as [msg ->]. by exists msg.
Qed.

Lemma update_accounts_outcomes (k : Z) (req : request) (w : world) (old : account) :
  Account.lookup k (db w) = Some old →
  (∃ d n e,
     is_json req = true ∧ json_body req = JObj d
     ∧ d !! "name" = Some n ∧ d !! "email" = Some e
     ∧ update_accounts k req w =
         (inr (with_status (jsonify (Account.serialize (updated w k d n e)))
                           status.HTTP_200_OK),
          set_db {| rows := replace_row k (updated w k d n e) (rows (db w));
                    next_id := next_id (db w) |} w))
  ∨ (∃ e, update_accounts k req w = (inl e, w)).
Proof.
  intros Hl. destruct (is_json req) eqn:Hjs.
  - destruct (valid_payload (json_body req)) eqn:Hv.
    + apply valid_payload_true in Hv as (d & n & e & Hj & Hn & He).
      left. exists d, n, e. repeat split; try done.
      by apply (update_accounts_ok k req w old d n e).
    + right. destruct (update_accounts_invalid k req w old Hl Hjs Hv) as [msg ->].
      by eexists.
  - right. rewrite (update_accounts_existing k req w old Hl).
    step. rewrite get_json_not_json by done.
    destruct (on_non_json w); by eexists.
Qed.

(** A body that is not JSON never reaches the store: the framework refuses
    it with 400 or 415, or hands over [None], which [deserialize]
    refuses. *)
Lemma update_accounts_refused (k : Z) (req : request) (w : world) (old : account) :
  Account.lookup k (db w) = Some old →
  is_json req = false →
  ∃ e, update_accounts k req w = (inl e, w)
       ∧ status_code (handle_exception e)
         = match on_non_json w with
           | RaisesUnsupportedMediaType => 415
           | _ => 400
           end.
Proof.
  intros Hl Hjs. rewrite (update_accounts_existing k req w old Hl).
  step. rewrite get_json_not_json by done.
  destruct (on_non_json w); by eexists.
Qed.

(** C6. GET /accounts/{id} is answered 200 with the serialized record when
    the store holds an account with that id, and 404 when it holds none.
    The lookup itself never raises: it returns the record or nothing, and
    the 404 is the handler's own abort. *)
Theorem get_accounts_found_or_404 (w : world) (req : request) (k : Z) :
  method req = "GET" → account_path (path req) = Some k →
  Account.find k w = (inr (Account.lookup k (db w)), w) ∧
  match Account.lookup k (db w) with
  | Some a =>
      a ∈ rows (db w) ∧ id a = Some k ∧
      status_code (app req w).1 = 200 ∧
      data (app req w).1 = Some (Account.serialize a)
  | None =>
      (∀ a, a ∈ rows (db w) → id a ≠ Some k) ∧
      status_code (app req w).1 = 404 ∧
      ∃ msg, get_accounts k w = (inl (HTTPException status.HTTP_404_NOT_FOUND msg), w)
  end.
Proof.
  intros Hm Hp. split; [reflexivity|].
  rewrite (app_get_account req w k), get_accounts_eval by done. unfold respond.
  destruct (Account.lookup k (db w)) as [a|] eqn:Hl.
  - destruct (lookup_Some _ _ _ Hl). by rewrite get_accounts_eval, Hl.
  - split; [|split].
    + intros a. by apply lookup_None.
    + by rewrite get_accounts_eval, Hl.
    + by eexists.
Qed.

Lemma get_accounts_found_or_404_witness :
  Account.find 1 sample_world = (inr (Account.lookup 1 (db sample_world)), sample_world) ∧
  match Account.lookup 1 (db sample_world) with
  | Some a =>
      a ∈ rows (db sample_world) ∧ id a = Some 1 ∧
      status_code (app (get_request "/accounts/1") sample_world).1 = 200 ∧
      data (app (get_request "/accounts/1") sample_world).1 = Some (Account.serialize a)
  | None =>
      (∀ a, a ∈ rows (db sample_world) → id a ≠ Some 1) ∧
      status_code (app (get_request "/accounts/1") sample_world).1 = 404 ∧
      ∃ msg, get_accounts 1 sample_world
             = (inl (HTTPException status.HTTP_404_NOT_FOUND msg), sample_world)
  end.
Proof.
  apply (get_accounts_found_or_404 sample_world (get_request "/accounts/1") 1); reflexivity.
Defined.




(** ** Requests no rule serves *)

Lemma match_request_spec (rules : list rule) (meth p : string) (have : bool) :
  match match_request rules meth p have with
  | Matched r v =>
      r ∈ rules ∧ match_rule r p = Some v ∧ meth ∈ allowed_methods r
  | MethodNotAllowed =>
      (have = true ∨ ∃ r, r ∈ rules ∧ is_Some (match_rule r p)) ∧
      ∀ r, r ∈ rules → is_Some (match_rule r p) → meth ∉ allowed_methods r
  | NotFound =>
      have = false ∧ ∀ r, r ∈ rules → match_rule r p = None
  end.
Proof.
  revert have. induction rules as [|r rules IH]; intros have.
  - cbn [match_request]. destruct have.
    + split; [by left|]. by intros r ?%elem_of_nil.
    + split; [done|]. by intros r ?%elem_of_nil.
  - cbn [match_request]. destruct (match_rule r p) as [v|] eqn:Hr.
    + case_bool_decide as Hmeth.
      * split; [by left|done].
      * specialize (IH true).
        destruct (match_request rules meth p true) as [r' v'| |].
        -- destruct IH as (? & ? & ?). split; [by right|done].
        -- destruct IH as [_ IH]. split.
           ++ right. exists r. split; [by left|]. by rewrite Hr.
           ++ intros r' [->|Hin]%elem_of_cons; [done|]. by apply IH.
        -- by destruct IH.
    + specialize (IH have).
      destruct (match_request rules meth p have) as [r' v'| |].
      * destruct IH as (? & ? & ?). split; [by right|done].
      * destruct IH as [Hex IH]. split.
        -- destruct Hex as [->|(r' & ? & ?)]; [by left|].
           right. exists r'. split; [by right|done].
        -- intros r' [->|Hin]%elem_of_cons Hsome; [|by apply IH].
           rewrite Hr in Hsome. by destruct Hsome.
      * destruct IH as [-> IH]. split; [done|].
        intros r' [->|Hin]%elem_of_cons; [done|]. by apply IH.
Qed.

Lemma method_mapped_false (meth p : string) (r : rule) :
  method_mapped meth p = false → r ∈ url_map →
  is_Some (match_rule r p) → meth ∉ allowed_methods r.
Proof.
  unfold method_mapped. intros H Hin Hsome Hmeth.
  assert (existsb (λ r, bool_decide (is_Some (match_rule r p))
                        && bool_decide (meth ∈ allowed_methods r)) url_map = true) as Ht.
  { apply existsb_exists. exists r. split; [by apply list_elem_of_In|].
    by rewrite !bool_decide_eq_true_2. }
  congruence.
Qed.

Lemma path_defined_true (p : string) :
  path_defined p = true → ∃ r, r ∈ url_map ∧ is_Some (match_rule r p).
Proof.
  unfold path_defined. intros (r & Hin & H)%existsb_exists.
  exists r. split; [by apply list_elem_of_In|]. by apply bool_decide_eq_true in H.
Qed.

Lemma match_request_not_allowed (meth p : string) :
  path_defined p = true → method_mapped meth p = false →
  match_request url_map meth p false = MethodNotAllowed.
Proof.
  intros (r & Hin & Hsome)%path_defined_true Hm.
  pose proof (match_request_spec url_map meth p false) as H.
  destruct (match_request url_map meth p false) as [r' v| |].
  - destruct H as (Hin' & Hs' & Hmeth).
    by destruct (method_mapped_false meth p r' Hm Hin' (mk_is_Some _ _ Hs')).
  - done.
  - destruct H as [_ H]. rewrite (H r Hin) in Hsome. by destruct Hsome.
Qed.

(** C8. A request whose path some rule serves, but with a method no rule
    serves on that path, is answered 405 and changes nothing. *)
Theorem unmapped_method_not_allowed (w : world) (req : request) :
  path_defined (path req) = true →
  method_mapped (method req) (path req) = false →
  status_code (app req w).1 = 405 ∧ (app req w).2 = w.
Proof.
  intros Hp Hm. unfold app, full_dispatch_request, dispatch_request.
  rewrite match_request_not_allowed by done.
  unfold respond, abort, raise. cbn [fst snd handle_exception].
  split; [|done]. unfold finalize. by destruct (String.eqb _ _).
Qed.

Lemma unmapped_method_not_allowed_witness :
  status_code (app (delete_request "/accounts") sample_world).1 = 405 ∧
  (app (delete_request "/accounts") sample_world).2 = sample_world.
Proof.
  apply (unmapped_method_not_allowed sample_world (delete_request "/accounts"));
    reflexivity.
Defined.

(** ** What each request can do to the store *)

(** The views the route table binds, by the methods they answer. *)
Lemma url_map_views (meth p : string) (r : rule) (v : request → M response) :
  r ∈ url_map → match_rule r p = Some v → meth ∈ allowed_methods r →
  (meth ∈ ["GET"; "HEAD"; "OPTIONS"] ∧
     (v = (λ _, health) ∨ v = (λ _, index) ∨ v = (λ _, list_accounts)
      ∨ ∃ k, account_path p = Some k ∧ v = (λ _, get_accounts k)))
  ∨ (meth ∈ ["POST"; "OPTIONS"] ∧ p = "/accounts" ∧ v = create_accounts
     ∧ r = Rule "/accounts" ["POST"] "create_accounts" create_accounts)
  ∨ (meth ∈ ["PUT"; "OPTIONS"] ∧ ∃ k, account_path p = Some k ∧ v = update_accounts k
     ∧ r = RuleInt "/accounts/" ["PUT"] "update_accounts" update_accounts).
Proof.
  unfold url_map. intros Hin Hv Hmeth.
  repeat (apply elem_of_cons in Hin as [->|Hin]); [..|by apply elem_of_nil in Hin];
    cbn [match_rule] in Hv.
  - destruct (String.eqb _ p); [|done]. injection Hv as <-. left. split; [done|by left].
  - destruct (String.eqb _ p); [|done]. injection Hv as <-.
    left. split; [done|by right; left].
  - destruct (String.eqb_spec "/accounts" p) as [<-|]; [|done]. injection Hv as <-.
    right; left. done.
  - destruct (String.eqb _ p); [|done]. injection Hv as <-.
    left. split; [done|by right; right; left].
  - left. split; [done|]. do 3 right. fold (account_path p) in Hv |- *.
    unfold account_path in *. destruct (strip_prefix _ p) as [rest|]; [|done].
    cbn in Hv |- *. destruct (int_converter rest) as [k|]; [|done].
    injection Hv as <-. by exists k.
  - right; right. split; [done|].
    unfold account_path. destruct (strip_prefix _ p) as [rest|]; [|done].
    cbn in Hv |- *. destruct (int_converter rest) as [k|]; [|done].
    injection Hv as <-. by exists k.
Qed.

Lemma app_world (req : request) (w : world) :
  (app req w).2 = (respond (dispatch_request url_map req) w).2.
Proof.
  unfold app, full_dispatch_request.
  by destruct (respond (dispatch_request url_map req) w).
Qed.

Lemma app_status (req : request) (w : world) :
  status_code (app req w).1 = status_code (respond (dispatch_request url_map req) w).1.
Proof.
  unfold app, full_dispatch_request.
  destruct (respond (dispatch_request url_map req) w) as [r w'].
  cbn [fst]. unfold finalize. by destruct (String.eqb _ _).
Qed.

Lemma read_views_frame (w : world) :
  (health w).2 = w ∧ (index w).2 = w ∧ db (list_accounts w).2 = db w
  ∧ ∀ k, (get_accounts k w).2 = w.
Proof.
  repeat split; try done.
  intros k. rewrite get_accounts_eval. by destruct (Account.lookup k (db w)).
Qed.

Lemma respond_world (m : M response) (w : world) : (respond m w).2 = (m w).2.
Proof. unfold respond. by destruct (m w) as [[e|r] w']. Qed.

(** Only the create and update handlers can change the store, and only
    when they are reached by [POST /accounts] and [PUT /accounts/<int>]. *)
Lemma dispatch_cases (req : request) (w : world) :
  db (respond (dispatch_request url_map req) w).2 = db w
  ∨ (method req = "POST" ∧ path req = "/accounts"
     ∧ dispatch_request url_map req = create_accounts req)
  ∨ (method req = "PUT" ∧ ∃ k, account_path (path req) = Some k
     ∧ dispatch_request url_map req = update_accounts k req).
Proof.
  unfold dispatch_request.
  pose proof (match_request_spec url_map (method req) (path req) false) as H.
  destruct (match_request url_map (method req) (path req) false) as [r v| |];
    [|by left..].
  destruct H as (Hin & Hv & Hmeth).
  destruct (String.eqb_spec (method req) "OPTIONS") as [Ho|Ho].
  - destruct (url_map_views _ _ _ _ Hin Hv Hmeth)
      as [[_ Hr]|[(_ & _ & _ & ->)|(_ & k & _ & _ & ->)]]; [|by left..].
    cbn [andb]. case_bool_decide; cbn [negb]; [|by left].
    left. rewrite respond_world.
    destruct (read_views_frame w) as (Hh & Hi & Hl & Hg).
    destruct Hr as [->|[->|[->|(k & _ & ->)]]]; by rewrite ?Hh, ?Hi, ?Hl, ?Hg.
  - cbn [andb].
    destruct (url_map_views _ _ _ _ Hin Hv Hmeth)
      as [[_ Hr]|[(Hm & Hp & -> & _)|(Hm & k & Hp & -> & _)]].
    + left. rewrite respond_world.
      destruct (read_views_frame w) as (Hh & Hi & Hl & Hg).
      destruct Hr as [->|[->|[->|(k & _ & ->)]]]; by rewrite ?Hh, ?Hi, ?Hl, ?Hg.
    + right; left. repeat split; [|done].
      apply elem_of_cons in Hm as [?|Hm]; [done|].
      by apply list_elem_of_singleton in Hm.
    + right; right. split; [|by exists k].
      apply elem_of_cons in Hm as [?|Hm]; [done|].
      by apply list_elem_of_singleton in Hm.
Qed.

(** C9. The read handlers (health, index, list_accounts, get_accounts)
    leave the store as it is, and so does every GET request served by the
    application, whatever its path, headers and body. *)
Theorem read_handlers_leave_store (w : world) :
  db (health w).2 = db w ∧
  db (index w).2 = db w ∧
  db (list_accounts w).2 = db w ∧
  (∀ k, db (get_accounts k w).2 = db w) ∧
  (∀ p hs body, db (app (Request "GET" p hs body) w).2 = db w).
Proof.
  destruct (read_views_frame w) as (Hh & Hi & Hl & Hg).
  repeat split; try done.
  - intros k. by rewrite Hg.
  - intros p hs body. rewrite app_world.
    by destruct (dispatch_cases (Request "GET" p hs body) w)
      as [H|[(Hm & _)|(Hm & _)]].
Qed.

(** ** The update handler and the Content-Type header *)





(** ** The Location header and the read-by-id route *)

Lemma account_path_url (k : Z) : 0 ≤ k → account_path (account_url k) = Some k.
Proof.
  intros Hk. unfold account_path, account_url. rewrite strip_prefix_app.
  cbn [mbind option_bind]. unfold int_converter, str_int.
  destruct k as [|p|p]; [reflexivity| |lia].
  cbn [Z.to_int NilZero.string_of_int].
  rewrite NilZero.usu by apply DecimalPos.Unsigned.to_uint_nonnil.
  cbn [fmap option_fmap option_map]. unfold Z.of_uint.
  by rewrite DecimalPos.Unsigned.of_to.
Qed.

Lemma account_url_endpoint (k : Z) :
  0 ≤ k → endpoint_of "GET" (account_url k) = Some "get_accounts".
Proof.
  intros Hk. unfold endpoint_of.
  by rewrite (match_account_path "GET" _ k) by by apply account_path_url.
Qed.

Lemma create_accounts_location (req : request) (w w' : world) (r : response) :
  create_accounts req w = (inr r, w') →
  status_code r = 201 ∧ header "Location" r = Some "/".
Proof.
  destruct (decide (headers req !! "Content-Type" = Some "application/json")) as [Hct|Hct].
  - destruct (valid_payload (json_body req)) eqn:Hv.
    + apply valid_payload_true in Hv as (d & n & e & Hj & Hn & He).
      rewrite (create_accounts_ok req w d n e) by done. by intros [= <- <-].
    + by destruct (create_accounts_invalid req w Hct Hv) as [msg ->].
  - by destruct (create_accounts_unsupported req w Hct) as (msg & w1 & -> & _).
Qed.

(** C3. The Location header of a 201 answer does not name the new resource:
    posting the sample payload creates account 2, whose read-by-id path is
    /accounts/2 and is routed to [get_accounts], while the header carries
    the placeholder "/", which is routed to [index]. *)
Theorem create_accounts_location_is_placeholder :
  status_code (app sample_post sample_world).1 = 201 ∧
  Account.lookup 2 (db sample_world) = None ∧
  (∃ a, Account.lookup 2 (db (app sample_post sample_world).2) = Some a
        ∧ data (app sample_post sample_world).1 = Some (Account.serialize a)) ∧
  account_url 2 = "/accounts/2" ∧
  endpoint_of "GET" (account_url 2) = Some "get_accounts" ∧
  header "Location" (app sample_post sample_world).1 = Some "/" ∧
  endpoint_of "GET" "/" = Some "index".
Proof.
  repeat split; try reflexivity.
  eexists. split; reflexivity.
Qed.

(** ** Deleting accounts *)

Lemma delete_changes_nothing (p : string) (hs : gmap string string) (body : json) (w : world) :
  status_code (app (Request "DELETE" p hs body) w).1 ∈ [404; 405] ∧
  (app (Request "DELETE" p hs body) w).2 = w.
Proof.
  rewrite app_status, app_world. unfold dispatch_request. cbn [method path].
  pose proof (match_request_spec url_map "DELETE" p false) as H.
  destruct (match_request url_map "DELETE" p false) as [r v| |].
  - destruct H as (Hin & Hv & Hmeth).
    destruct (url_map_views _ _ _ _ Hin Hv Hmeth) as [[Hm _]|[(Hm & _)|(Hm & _)]];
      absurd_member Hm.
  - split; [|done]. right; by left.
  - split; [|done]. by left.
Qed.

(** C7. DELETE on the id of a stored account does not remove it: no rule
    serves the method, the answer is 405, the world is unchanged, and a GET
    for the same id afterwards is still answered 200. *)
Theorem delete_existing_account_not_removed :
  (∃ a, Account.lookup 1 (db sample_world) = Some a) ∧
  status_code (app (delete_request "/accounts/1") sample_world).1 = 405 ∧
  (app (delete_request "/accounts/1") sample_world).2 = sample_world ∧
  status_code (app (get_request "/accounts/1")
                   (app (delete_request "/accounts/1") sample_world).2).1 = 200.
Proof.
  repeat split; try reflexivity. by eexists.
Qed.

(** ** The store stays consistent *)

Lemma store_ok_iff (s : store) :
  store_ok s = true ↔
    0 < next_id s
    ∧ Forall (λ a, ∃ k, id a = Some k ∧ 0 < k < next_id s) (rows s)
    ∧ NoDup (id <$> rows s).
Proof.
  unfold store_ok. rewrite !andb_true_iff, bool_decide_eq_true, Z.ltb_lt.
  rewrite forallb_forall, Forall_forall.
  split; intros [[H1 H2] H3] || intros (H1 & H2 & H3); repeat split; try done.
  - intros a Ha. apply list_elem_of_In, H2 in Ha. unfold row_ok in Ha.
    destruct (id a) as [k|]; [|done]. exists k. split; [done|].
    apply andb_true_iff in Ha. lia.
  - intros a Ha. apply list_elem_of_In, H2 in Ha as (k & Hk & Hlt).
    unfold row_ok. rewrite Hk. apply andb_true_iff. lia.
Qed.

Lemma store_ok_empty : store_ok {| rows := []; next_id := 1 |} = true.
Proof. reflexivity. Qed.

Lemma store_ok_create (s : store) (a : account) :
  store_ok s = true →
  store_ok {| rows := rows s ++ [Account.with_id (next_id s) a];
              next_id := next_id s + 1 |} = true.
Proof.
  rewrite !store_ok_iff. cbn [rows next_id]. intros (Hn & Hrows & Hnd).
  split; [lia|]. split.
  - apply Forall_app. split.
    + eapply Forall_impl; [done|]. intros r (k & Hk & Hlt). exists k. split; [done|lia].
    + apply Forall_singleton. exists (next_id s). split; [done|lia].
  - rewrite fmap_app. apply NoDup_app. split; [done|]. split; [|apply NoDup_singleton].
    intros i Hi Hi'. apply list_elem_of_singleton in Hi'. subst i.
    apply list_elem_of_fmap in Hi as (r & Hid & Hr).
    rewrite Forall_forall in Hrows. destruct (Hrows r Hr) as (k & Hk & Hlt).
    cbn [Account.with_id id] in Hid. rewrite Hk in Hid. injection Hid as <-. lia.
Qed.

Lemma replace_row_ids (k : Z) (a : account) (l : list account) :
  id a = Some k → id <$> replace_row k a l = id <$> l.
Proof.
  intros Ha. unfold replace_row. rewrite <-list_fmap_compose.
  apply list_fmap_ext. intros i r _. cbn. unfold Account.has_id.
  case_bool_decide; congruence.
Qed.

Lemma store_ok_update (s : store) (k : Z) (a : account) :
  store_ok s = true → id a = Some k →
  store_ok {| rows := replace_row k a (rows s); next_id := next_id s |} = true.
Proof.
  rewrite !store_ok_iff. cbn [rows next_id]. intros (Hn & Hrows & Hnd) Ha.
  split; [done|]. split; [|by rewrite replace_row_ids].
  unfold replace_row. apply Forall_fmap. eapply Forall_impl; [done|].
  intros r (k' & Hk' & Hlt). cbn. unfold Account.has_id.
  case_bool_decide as Hr; [|by exists k'].
  exists k. split; [done|]. congruence.
Qed.

(** Every request leaves a consistent store consistent. *)
Lemma app_preserves_store_ok (req : request) (w : world) :
  store_ok (db w) = true → store_ok (db (app req w).2) = true.
Proof.
  intros Hok. rewrite app_world.
  destruct (dispatch_cases req w) as [->|[(_ & _ & ->)|(_ & k & _ & ->)]]; [done| |].
  - destruct (decide (headers req !! "Content-Type" = Some "application/json")) as [Hct|Hct].
    + destruct (valid_payload (json_body req)) eqn:Hv.
      * apply valid_payload_true in Hv as (d & n & e & Hj & Hn & He).
        unfold respond. rewrite (create_accounts_ok req w d n e) by done.
        cbn [snd db]. apply (store_ok_create (db w) (created w d n e) Hok).
      * unfold respond. by destruct (create_accounts_invalid req w Hct Hv) as [msg ->].
    + unfold respond.
      destruct (create_accounts_unsupported req w Hct) as (msg & w1 & -> & Hdb).
      cbn [snd]. by rewrite Hdb.
  - destruct (Account.lookup k (db w)) as [old|] eqn:Hl.
    + unfold respond.
      destruct (update_accounts_outcomes k req w old Hl)
        as [(d & n & e & _ & _ & _ & _ & ->)|(e & ->)]; [|done].
      cbn [snd db set_db]. by apply store_ok_update.
    + unfold respond. by rewrite update_accounts_missing.
Qed.

(** An update is durable: the record a PUT answers is the one a GET on the
    same id reads afterwards. *)
Lemma update_then_get (w : world) (k : Z) (req : request) (old : account)
    (d : gmap string json) (n e : json) :
  Account.lookup k (db w) = Some old →
  is_json req = true →
  json_body req = JObj d → d !! "name" = Some n → d !! "email" = Some e →
  respond (get_accounts k) (respond (update_accounts k req) w).2
  = ((respond (update_accounts k req) w).1, (respond (update_accounts k req) w).2).
Proof.
  intros Hl Hjs Hj Hn He. unfold respond at 2 3 4.
  rewrite (update_accounts_ok k req w old d n e) by done. cbn [fst snd].
  unfold respond. rewrite get_accounts_eval. unfold Account.lookup. cbn [db set_db rows].
  rewrite find_replace_row by (unfold Account.has_id; by apply bool_decide_eq_true).
  unfold Account.lookup in Hl. by rewrite Hl.
Qed.

(** ** Further properties of section 8 of the specification *)

(** The health check is always answered 200 with status "OK". *)
Lemma health_ok (hs : gmap string string) (body : json) (w : world) :
  app (Request "GET" "/health" hs body) w
  = (with_status (jsonify (JObj {[ "status" := JStr "OK" ]})) 200, w).
Proof. reflexivity. Qed.

(** Fields the payload leaves out: [address] and [phone_number] are null,
    [date_joined] is the date of the day. *)
Lemma serialize_created_defaults (k : option Z) (d : gmap string json) (n e : json)
    (t : string) (body : gmap string json) :
  Account.serialize
    {| id := k; name := n; email := e;
       address := default JNull (d !! "address");
       phone_number := default JNull (d !! "phone_number");
       date_joined := default (JStr t) (d !! "date_joined") |} = JObj body →
  (d !! "address" = None → body !! "address" = Some JNull) ∧
  (d !! "phone_number" = None → body !! "phone_number" = Some JNull) ∧
  (d !! "date_joined" = None → body !! "date_joined" = Some (JStr t)).
Proof.
  intros [= <-]. repeat split; intros H; cbn [address phone_number date_joined];
    by rewrite H.
Qed.

(** A successful creation adds exactly one account to the list. *)
Lemma create_then_count (w : world) (req : request) (d : gmap string json) (n e : json) :
  method req = "POST" → path req = "/accounts" →
  headers req !! "Content-Type" = Some "application/json" →
  json_body req = JObj d → d !! "name" = Some n → d !! "email" = Some e →
  account_count (app req w).2 = S <$> account_count w.
Proof.
  intros Hm Hp Hct Hj Hn He. rewrite !account_count_rows.
  rewrite app_post_accounts by done. unfold respond.
  rewrite (create_accounts_ok req w d n e) by done.
  cbn [snd db rows fmap option_fmap option_map]. rewrite length_app. cbn [length].
  f_equal. lia.
Qed.

Lemma find_app_r {A} (f : A → bool) (l l' : list A) :
  List.find f l = None → List.find f (l ++ l') = List.find f l'.
Proof.
  induction l as [|x l IH]; [done|]. simpl.
  destruct (f x); [done|]. apply IH.
Qed.

(** A freshly created account is read back under the id it was given. *)
Lemma create_then_get (w : world) (req : request) (d : gmap string json) (n e : json) :
  store_ok (db w) = true →
  method req = "POST" → path req = "/accounts" →
  headers req !! "Content-Type" = Some "application/json" →
  json_body req = JObj d → d !! "name" = Some n → d !! "email" = Some e →
  Account.lookup (next_id (db w)) (db (app req w).2) = Some (created w d n e).
Proof.
  intros Hok Hm Hp Hct Hj Hn He.
  rewrite app_post_accounts by done. unfold respond.
  rewrite (create_accounts_ok req w d n e) by done.
  cbn [snd db]. unfold Account.lookup. cbn [rows].
  destruct (List.find (Account.has_id (next_id (db w))) (rows (db w))) as [a|] eqn:Hf.
  - apply find_some in Hf as [Hin Hid]. apply list_elem_of_In in Hin.
    destruct (store_ok_row _ _ Hok Hin) as (k & Hk & Hlt).
    unfold Account.has_id in Hid. apply bool_decide_eq_true in Hid.
    rewrite Hk in Hid. injection Hid as ->. lia.
  - rewrite find_app_r by done. cbn [List.find]. unfold Account.has_id.
    by rewrite bool_decide_eq_true_2.
Qed.

(** * The handlers taken together *)

(** ** The media type check *)

Lemma check_content_type_eval (req : request) (media_type : string) (w : world) :
  check_content_type req media_type w =
    if bool_decide (headers req !! "Content-Type" = Some media_type ∧ media_type ≠ "")
    then (inr tt, w)
    else (inl (HTTPException status.HTTP_415_UNSUPPORTED_MEDIA_TYPE
                 ("Content-Type must be " +:+ media_type)),
          add_log (LogRecord "ERROR"
                     ("Invalid Content-Type: " +:+ str_opt (headers req !! "Content-Type"))) w).
Proof.
  unfold check_content_type.
  destruct (headers req !! "Content-Type") as [ct|] eqn:Hct; cbn [truthy andb].
  - destruct (String.eqb_spec ct "") as [->|Hne]; cbn [negb andb].
    + rewrite bool_decide_eq_false_2; [done|]. intros [[= <-] ?]. done.
    + case_bool_decide as H1.
      * injection H1 as <-. by rewrite bool_decide_eq_true_2.
      * rewrite bool_decide_eq_false_2; [done|]. by intros [? _].
  - rewrite bool_decide_eq_false_2; [done|]. by intros [? _].
Qed.

(** X1. [check_content_type] lets a request through exactly when its
    Content-Type header is present, equal to the media type asked for and
    not empty. Otherwise it aborts with 415 after logging one ERROR record
    that names the header received, and changes nothing else. *)
Theorem check_content_type_accepts_iff (req : request) (media_type : string) (w : world) :
  (check_content_type req media_type w = (inr tt, w)
   ↔ headers req !! "Content-Type" = Some media_type ∧ media_type ≠ "") ∧
  (¬ (headers req !! "Content-Type" = Some media_type ∧ media_type ≠ "") →
   check_content_type req media_type w =
     (inl (HTTPException 415 ("Content-Type must be " +:+ media_type)),
      {| db := db w;
         log := log w ++ [LogRecord "ERROR"
                            ("Invalid Content-Type: "
                             +:+ str_opt (headers req !! "Content-Type"))];
         today := today w; on_non_json := on_non_json w |})).
Proof.
  rewrite check_content_type_eval. case_bool_decide as H; split; try done.
Qed.

(** ** Every request, case by case *)

Lemma respond_read_views (v : request → M response) (req : request) (w : world) (p : string) :
  (v = (λ _, health) ∨ v = (λ _, index) ∨ v = (λ _, list_accounts)
   ∨ ∃ k, account_path p = Some k ∧ v = (λ _, get_accounts k)) →
  outcome req w (status_code (respond (v req) w).1) (respond (v req) w).2.
Proof.
  intros [->|[->|[->|(k & _ & ->)]]].
  - apply out_unchanged. by left.
  - apply out_unchanged. by left.
  - destruct (list_accounts_eval w) as [msg H]. unfold respond. rewrite H.
    apply out_list.
  - unfold respond. rewrite get_accounts_eval.
    destruct (Account.lookup k (db w)); apply out_unchanged; [by left|right; by left].
Qed.

Lemma create_accounts_unsupported_eval (req : request) (w : world) :
  headers req !! "Content-Type" ≠ Some "application/json" →
  create_accounts req w =
    (inl (HTTPException status.HTTP_415_UNSUPPORTED_MEDIA_TYPE
            ("Content-Type must be " +:+ "application/json")),
     add_log (LogRecord "ERROR"
                ("Invalid Content-Type: " +:+ str_opt (headers req !! "Content-Type")))
       (add_log (LogRecord "INFO" "Request to create an Account") w)).
Proof.
  intros Hct. unfold create_accounts. step. cbn [logger_info modify]. step.
  rewrite check_content_type_eval.
  by rewrite bool_decide_eq_false_2 by (by intros [? _]).
Qed.

Lemma respond_create_accounts (req : request) (w : world) :
  method req = "POST" → path req = "/accounts" →
  outcome req w (status_code (respond (create_accounts req) w).1)
                (respond (create_accounts req) w).2.
Proof.
  intros Hm Hp. unfold respond.
  destruct (decide (headers req !! "Content-Type" = Some "application/json")) as [Hct|Hct].
  - destruct (valid_payload (json_body req)) eqn:Hv.
    + apply valid_payload_true in Hv as (d & n & e & Hj & Hn & He).
      rewrite (create_accounts_ok req w d n e) by done.
      by apply (out_create_201 req w d n e).
    + destruct (create_accounts_invalid req w Hct Hv) as [msg ->].
      by apply out_create_400.
  - rewrite create_accounts_unsupported_eval by done.
    by apply out_create_415.
Qed.

Lemma respond_update_accounts (req : request) (w : world) (k : Z) :
  method req = "PUT" → account_path (path req) = Some k →
  outcome req w (status_code (respond (update_accounts k req) w).1)
                (respond (update_accounts k req) w).2.
Proof.
  intros Hm Hp. unfold respond.
  destruct (Account.lookup k (db w)) as [old|] eqn:Hl.
  - destruct (is_json req) eqn:Hjs.
    + destruct (valid_payload (json_body req)) eqn:Hv.
      * apply valid_payload_true in Hv as (d & n & e & Hj & Hn & He).
        rewrite (update_accounts_ok k req w old d n e) by done.
        by apply (out_update_200 req w k old d n e).
      * destruct (update_accounts_invalid k req w old Hl Hjs Hv) as [msg ->].
        by apply (out_update_400 req w k old).
    + destruct (update_accounts_refused k req w old Hl Hjs) as (e & -> & Hs).
      cbn [fst snd]. rewrite Hs.
      apply (out_update_refused req w k old); try done.
      * destruct (on_non_json w); repeat first [by left | right].
      * by destruct (on_non_json w).
  - rewrite update_accounts_missing by done.
    apply out_unchanged. right; by left.
Qed.

Lemma app_outcome (req : request) (w : world) :
  outcome req w (status_code (app req w).1) (app req w).2.
Proof.
  rewrite app_status, app_world. unfold dispatch_request.
  pose proof (match_request_spec url_map (method req) (path req) false) as H.
  destruct (match_request url_map (method req) (path req) false) as [r v| |].
  - destruct H as (Hin & Hv & Hmeth).
    destruct (String.eqb_spec (method req) "OPTIONS") as [Ho|Ho]; cbn [andb].
    + destruct (url_map_views _ _ _ _ Hin Hv Hmeth)
        as [[_ Hr]|[(_ & _ & _ & ->)|(_ & k & _ & _ & ->)]];
        [|apply out_unchanged; by left..].
      case_bool_decide; cbn [negb]; [|apply out_unchanged; by left].
      by apply (respond_read_views v req w (path req)).
    + destruct (url_map_views _ _ _ _ Hin Hv Hmeth)
        as [[_ Hr]|[(Hm & Hp & -> & _)|(Hm & k & Hp & -> & _)]].
      * by apply (respond_read_views v req w (path req)).
      * apply respond_create_accounts; [|done].
        apply elem_of_cons in Hm as [?|Hm]; [done|].
        by apply list_elem_of_singleton in Hm.
      * apply respond_update_accounts; [|done].
        apply elem_of_cons in Hm as [?|Hm]; [done|].
        by apply list_elem_of_singleton in Hm.
  - apply out_unchanged. right; right; by left.
  - apply out_unchanged. right; by left.
Qed.

(** X2. No request removes an account or takes an id back: the ids stored
    before a request are, in the same order, the first ids stored after it,
    and the id counter never decreases. *)
Theorem requests_never_remove_accounts (req : request) (w : world) :
  (id <$> rows (db w)) `prefix_of` (id <$> rows (db (app req w).2)) ∧
  next_id (db w) ≤ next_id (db (app req w).2).
Proof.
  destruct (app_outcome req w); cbn [db rows next_id set_db add_log];
    try (split; [done|lia]).
  - split; [|lia]. rewrite fmap_app. by apply prefix_app_r.
  - split; [|lia]. by rewrite replace_row_ids.
Qed.

(** X3. A request only ever appends to the application log and never
    touches the calendar date: the log before is a prefix of the log after,
    by at most two records. *)
Theorem requests_append_to_log (req : request) (w : world) :
  today (app req w).2 = today w ∧
  log w `prefix_of` log (app req w).2 ∧
  (length (log (app req w).2) ≤ length (log w) + 2)%nat.
Proof.
  destruct (app_outcome req w); cbn [today log set_db add_log];
    rewrite ?length_app; cbn [length]; repeat split; try done; try lia.
  all: try by apply prefix_app_r.
  rewrite <-(assoc_L (++)). by apply prefix_app_r.
Qed.

(** X4. On the paths the routes serve, and with a store that takes every
    record, the application answers with one of six statuses, never with a
    server error. 201 is an answer to POST /accounts only; 415 to POST
    /accounts, or to a PUT on an account path under a framework that
    answers bodies that are not JSON with 415; 400 to POST /accounts or to
    a PUT on an account path only. *)
Theorem app_status_codes (req : request) (w : world) :
  path_defined (path req) = true →
  status_code (app req w).1 ∈ [200; 201; 400; 404; 405; 415] ∧
  (status_code (app req w).1 = 201 →
   method req = "POST" ∧ path req = "/accounts") ∧
  (status_code (app req w).1 = 415 →
   (method req = "POST" ∧ path req = "/accounts")
   ∨ (method req = "PUT" ∧ is_Some (account_path (path req))
      ∧ on_non_json w = RaisesUnsupportedMediaType)) ∧
  (status_code (app req w).1 = 400 →
   (method req = "POST" ∧ path req = "/accounts")
   ∨ (method req = "PUT" ∧ is_Some (account_path (path req)))).
Proof.
  intros _.
  destruct (app_outcome req w)
    as [code Hc|msg|msg Hm Hp Hct|Hm Hp Hv|d n e Hm Hp Hj Hn He
       |k old Hm Hp Hlk Hjs Hv|k old code Hm Hp Hlk Hjs Hc H415
       |k old d n e Hm Hp Hlk Hjs Hj Hn He].
  - split; [|split; [|split]].
    + repeat (apply elem_of_cons in Hc as [->|Hc]); [..|by apply elem_of_nil in Hc];
        repeat first [by left | right].
    + intros ->. absurd_member Hc.
    + intros ->. absurd_member Hc.
    + intros ->. absurd_member Hc.
  - split; [by left|]. by repeat split.
  - split; [repeat first [by left | right]|]. repeat split; try done. by left.
  - split; [repeat first [by left | right]|]. repeat split; try done. by left.
  - split; [repeat first [by left | right]|]. by repeat split.
  - split; [repeat first [by left | right]|]. repeat split; try done.
    intros _. right. split; [done|by eexists].
  - split; [|split; [|split]].
    + repeat (apply elem_of_cons in Hc as [->|Hc]); [..|by apply elem_of_nil in Hc];
        repeat first [by left | right].
    + intros ->. absurd_member Hc.
    + intros ->. right. split; [done|]. split; [by eexists|]. by apply H415.
    + intros _. right. split; [done|by eexists].
  - split; [by left|]. by repeat split.
Qed.

Lemma app_status_codes_witness :
  status_code (app html_post sample_world).1 ∈ [200; 201; 400; 404; 405; 415] ∧
  (status_code (app html_post sample_world).1 = 201 →
   method html_post = "POST" ∧ path html_post = "/accounts") ∧
  (status_code (app html_post sample_world).1 = 415 →
   (method html_post = "POST" ∧ path html_post = "/accounts")
   ∨ (method html_post = "PUT" ∧ is_Some (account_path (path html_post))
      ∧ on_non_json sample_world = RaisesUnsupportedMediaType)) ∧
  (status_code (app html_post sample_world).1 = 400 →
   (method html_post = "POST" ∧ path html_post = "/accounts")
   ∨ (method html_post = "PUT" ∧ is_Some (account_path (path html_post)))).
Proof. apply (app_status_codes html_post sample_world). reflexivity. Defined.

(** ** Updates *)

Lemma replace_row_idem (k : Z) (a : account) (l : list account) :
  Account.has_id k a = true →
  replace_row k a (replace_row k a l) = replace_row k a l.
Proof.
  intros Ha. unfold replace_row. rewrite <-list_fmap_compose.
  apply list_fmap_ext. intros i r _. cbn.
  destruct (Account.has_id k r) eqn:Hr; by rewrite ?Ha, ?Hr.
Qed.

Lemma lookup_replace_row_ne (j k : Z) (a : account) (l : list account) :
  j ≠ k → id a = Some k →
  List.find (Account.has_id j) (replace_row k a l) = List.find (Account.has_id j) l.
Proof.
  intros Hne Ha. induction l as [|r l IH]; [done|].
  cbn [replace_row fmap list_fmap List.find].
  destruct (Account.has_id k r) eqn:Hr.
  - assert (Account.has_id j a = false) as ->.
    { unfold Account.has_id. apply bool_decide_eq_false. rewrite Ha. congruence. }
    assert (Account.has_id j r = false) as ->.
    { unfold Account.has_id in *. apply bool_decide_eq_true in Hr.
      apply bool_decide_eq_false. rewrite Hr. congruence. }
    apply IH.
  - destruct (Account.has_id j r); [done|]. apply IH.
Qed.

Lemma dispatch_put (p : string) (hs : gmap string string) (body : json) :
  (∃ k, account_path p = Some k
        ∧ dispatch_request url_map (put_request p hs body)
          = update_accounts k (put_request p hs body))
  ∨ (∃ code msg, dispatch_request url_map (put_request p hs body) = abort code msg).
Proof.
  unfold dispatch_request. cbn [method path put_request].
  pose proof (match_request_spec url_map "PUT" p false) as H.
  destruct (match_request url_map "PUT" p false) as [r v| |];
    [|right; by do 2 eexists..].
  destruct H as (Hin & Hv & Hmeth). cbn [String.eqb Ascii.eqb Bool.eqb andb].
  destruct (url_map_views _ _ _ _ Hin Hv Hmeth)
    as [[Hm _]|[(Hm & _)|(_ & k & Hk & -> & _)]].
  - absurd_member Hm.
  - absurd_member Hm.
  - left. by exists k.
Qed.

Lemma app_put_respond (p : string) (hs : gmap string string) (body : json) (w : world) :
  app (put_request p hs body) w
  = respond (dispatch_request url_map (put_request p hs body)) w.
Proof.
  unfold app, full_dispatch_request.
  by destruct (respond (dispatch_request url_map (put_request p hs body)) w).
Qed.

(** X6. PUT is idempotent: sending the same PUT request again, on any path
    and with any body, gives the same answer and leaves the world exactly
    as the first one left it. *)
Theorem put_idempotent (p : string) (hs : gmap string string) (body : json) (w : world) :
  app (put_request p hs body) (app (put_request p hs body) w).2
  = app (put_request p hs body) w.
Proof.
  rewrite !app_put_respond.
  destruct (dispatch_put p hs body) as [(k & Hk & ->)|(code & msg & ->)]; [|done].
  set (req := put_request p hs body). unfold respond.
  destruct (Account.lookup k (db w)) as [old|] eqn:Hl.
  - destruct (update_accounts_outcomes k req w old Hl)
      as [(d & n & e & Hjs & Hj & Hn & He & Hu)|(e & Hu)].
    + rewrite Hu. cbn [snd].
      set (a := updated w k d n e).
      assert (Account.has_id k a = true) as Ha.
      { unfold Account.has_id. by apply bool_decide_eq_true. }
      set (w1 := set_db _ w).
      assert (Account.lookup k (db w1) = Some a) as Hl1.
      { unfold Account.lookup, w1. cbn [db set_db rows].
        rewrite find_replace_row by done. unfold Account.lookup in Hl. by rewrite Hl. }
      rewrite (update_accounts_ok k req w1 a d n e) by done.
      assert (updated w1 k d n e = a) as -> by done.
      unfold w1. cbn [db set_db rows next_id log today].
      rewrite (replace_row_idem k a _ Ha). reflexivity.
    + rewrite Hu. cbn [snd]. by rewrite Hu.
  - rewrite (update_accounts_missing k req w Hl). cbn [snd].
    by rewrite (update_accounts_missing k req w Hl).
Qed.

Lemma find_app_l {A} (f : A → bool) (l l' : list A) (a : A) :
  List.find f l = Some a → List.find f (l ++ l') = Some a.
Proof.
  induction l as [|x l IH]; [done|]. simpl.
  destruct (f x); [done|]. apply IH.
Qed.

(** X7. What is stored under an id changes only through a successful PUT
    to that id: after any other request, and after any request that is
    not answered 200, the record found under the id is the one that was
    there before. *)
Theorem record_changes_only_by_put (req : request) (w : world) (j : Z) (a : account) :
  Account.lookup j (db w) = Some a →
  Account.lookup j (db (app req w).2) = Some a
  ∨ (method req = "PUT" ∧ account_path (path req) = Some j
     ∧ status_code (app req w).1 = 200).
Proof.
  intros Hl.
  destruct (app_outcome req w)
    as [code Hc|msg|msg Hm Hp Hct|Hm Hp Hv|d n e Hm Hp Hj Hn He
       |k old Hm Hp Hlk Hjs Hv|k old code Hm Hp Hlk Hjs Hc H415
       |k old d n e Hm Hp Hlk Hjs Hj Hn He]; try by left.
  - left. unfold Account.lookup in *. cbn [db rows]. by apply find_app_l.
  - destruct (decide (j = k)) as [->|Hne]; [by right|].
    left. unfold Account.lookup in *. cbn [db set_db rows].
    by rewrite lookup_replace_row_ne.
Qed.

Lemma record_changes_only_by_put_witness :
  Account.lookup 1 (db (app sample_post sample_world).2)
  = Some {| id := Some 1; name := JStr "Ada"; email := JStr "ada@example.org";
            address := JStr "1 Main St"; phone_number := JNull;
            date_joined := JStr "2023-05-17" |}
  ∨ (method sample_post = "PUT" ∧ account_path (path sample_post) = Some 1
     ∧ status_code (app sample_post sample_world).1 = 200).
Proof.
  apply (record_changes_only_by_put sample_post sample_world 1). reflexivity.
Defined.

(** ** Creating twice *)

(** X8. POST is not idempotent: posting the same valid payload twice
    stores two records under two different ids, each answer carrying the
    record stored under its id, and the list grows by two. *)
Theorem post_twice_two_accounts
    (w : world) (req : request) (d : gmap string json) (n e : json) :
  store_ok (db w) = true →
  method req = "POST" → path req = "/accounts" →
  headers req !! "Content-Type" = Some "application/json" →
  json_body req = JObj d → d !! "name" = Some n → d !! "email" = Some e →
  ∃ (k1 k2 : Z) (a1 a2 : account),
    k1 ≠ k2 ∧
    data (app req w).1 = Some (Account.serialize a1) ∧
    data (app req (app req w).2).1 = Some (Account.serialize a2) ∧
    id a1 = Some k1 ∧ id a2 = Some k2 ∧
    Account.lookup k1 (db (app req (app req w).2).2) = Some a1 ∧
    Account.lookup k2 (db (app req (app req w).2).2) = Some a2 ∧
    account_count (app req (app req w).2).2 = (λ c, S (S c)) <$> account_count w.
Proof.
  intros Hok Hm Hp Hct Hj Hn He.
  pose proof (app_preserves_store_ok req w Hok) as Hok1.
  pose proof (create_then_get w req d n e Hok Hm Hp Hct Hj Hn He) as Hg1.
  pose proof (create_then_get (app req w).2 req d n e Hok1 Hm Hp Hct Hj Hn He) as Hg2.
  pose proof (create_then_count w req d n e Hm Hp Hct Hj Hn He) as Hc1.
  pose proof (create_then_count (app req w).2 req d n e Hm Hp Hct Hj Hn He) as Hc2.
  set (w1 := (app req w).2) in *.
  assert (next_id (db w1) = next_id (db w) + 1) as Hnext.
  { unfold w1. rewrite app_post_accounts by done. unfold respond.
    by rewrite (create_accounts_ok req w d n e). }
  exists (next_id (db w)), (next_id (db w1)), (created w d n e), (created w1 d n e).
  repeat split; try done.
  - lia.
  - rewrite app_post_accounts by done. unfold respond.
    by rewrite (create_accounts_ok req w d n e).
  - rewrite app_post_accounts by done. unfold respond.
    by rewrite (create_accounts_ok req w1 d n e).
  - rewrite app_post_accounts by done. unfold respond.
    rewrite (create_accounts_ok req w1 d n e) by done.
    cbn [snd db]. unfold Account.lookup in *. cbn [rows]. by apply find_app_l.
  - rewrite Hc2, Hc1. by destruct (account_count w).
Qed.

Lemma post_twice_two_accounts_witness :
  ∃ (k1 k2 : Z) (a1 a2 : account),
    k1 ≠ k2 ∧
    data (app sample_post sample_world).1 = Some (Account.serialize a1) ∧
    data (app sample_post (app sample_post sample_world).2).1 = Some (Account.serialize a2) ∧
    id a1 = Some k1 ∧ id a2 = Some k2 ∧
    Account.lookup k1 (db (app sample_post (app sample_post sample_world).2).2) = Some a1 ∧
    Account.lookup k2 (db (app sample_post (app sample_post sample_world).2).2) = Some a2 ∧
    account_count (app sample_post (app sample_post sample_world).2).2
    = (λ c, S (S c)) <$> account_count sample_world.
Proof.
  apply (post_twice_two_accounts sample_world sample_post sample_payload
           (JStr "Bob") (JStr "bob@example.org")); reflexivity.
Defined.

(** ** Listing and reading agree *)

Lemma lookup_NoDup (l : list account) (a : account) (k : Z) :
  NoDup (id <$> l) → a ∈ l → id a = Some k →
  List.find (Account.has_id k) l = Some a.
Proof.
  induction l as [|r l IH]; intros Hnd Hin Hid; [by apply elem_of_nil in Hin|].
  rewrite fmap_cons in Hnd. apply NoDup_cons in Hnd as [Hr Hnd].
  cbn [List.find]. unfold Account.has_id at 1.
  apply elem_of_cons in Hin as [->|Hin].
  - by rewrite bool_decide_eq_true_2.
  - rewrite bool_decide_eq_false_2; [by apply IH|].
    intros Hrk. apply Hr. rewrite Hrk, <-Hid. by apply list_elem_of_fmap_2.
Qed.

(** X9. On a consistent store the list and the single reads agree: GET
    /accounts answers 200 with one entry per stored account, and a value
    is an entry of that list exactly when GET /accounts/<id> answers 200
    with it for some id. *)
Theorem list_and_get_agree (w : world) :
  store_ok (db w) = true →
  ∃ l : list json,
    status_code (app (get_request "/accounts") w).1 = 200 ∧
    data (app (get_request "/accounts") w).1 = Some (JArr l) ∧
    length l = length (rows (db w)) ∧
    ∀ x, x ∈ l ↔
         ∃ k, 0 ≤ k ∧
              status_code (app (get_request (account_url k)) w).1 = 200 ∧
              data (app (get_request (account_url k)) w).1 = Some x.
Proof.
  intros Hok. exists (Account.serialize <$> rows (db w)).
  rewrite app_get_accounts by done.
  destruct (list_accounts_eval w) as [msg Hl]. unfold respond at 1 2. rewrite Hl.
  cbn [fst status_code data with_status jsonify].
  split; [done|]. split; [done|]. split; [by rewrite length_fmap|].
  apply store_ok_iff in Hok as (Hn & Hrows & Hnd).
  intros x. split.
  - intros (a & -> & Ha)%list_elem_of_fmap.
    rewrite Forall_forall in Hrows. destruct (Hrows a Ha) as (k & Hk & Hlt).
    exists k. split; [lia|].
    rewrite (app_get_account _ w k) by (done || apply account_path_url; lia).
    unfold respond. rewrite get_accounts_eval. unfold Account.lookup.
    by rewrite (lookup_NoDup _ a k).
  - intros (k & Hk & Hs & Hd).
    rewrite (app_get_account _ w k) in Hs, Hd by (done || by apply account_path_url).
    unfold respond in Hs, Hd. rewrite get_accounts_eval in Hs, Hd.
    destruct (Account.lookup k (db w)) as [a|] eqn:Hla; [|done].
    injection Hd as <-. apply list_elem_of_fmap_2. by apply lookup_Some in Hla as [? _].
Qed.

Lemma list_and_get_agree_witness :
  ∃ l : list json,
    status_code (app (get_request "/accounts") sample_world).1 = 200 ∧
    data (app (get_request "/accounts") sample_world).1 = Some (JArr l) ∧
    length l = length (rows (db sample_world)) ∧
    ∀ x, x ∈ l ↔
         ∃ k, 0 ≤ k ∧
              status_code (app (get_request (account_url k)) sample_world).1 = 200 ∧
              data (app (get_request (account_url k)) sample_world).1 = Some x.
Proof. apply (list_and_get_agree sample_world). reflexivity. Defined.

(** ** Ids that were never given out *)

(** X10. On a consistent store GET and PUT on an id that was never
    assigned, 0 or an id from the counter upwards, are answered 404 and
    change nothing. *)
Theorem unassigned_id_not_found (w : world) (req : request) (k : Z) :
  store_ok (db w) = true →
  method req = "GET" ∨ method req = "PUT" →
  account_path (path req) = Some k →
  k ≤ 0 ∨ next_id (db w) ≤ k →
  status_code (app req w).1 = 404 ∧ (app req w).2 = w.
Proof.
  intros Hok Hm Hp Hk.
  assert (Account.lookup k (db w) = None) as Hl.
  { destruct (Account.lookup k (db w)) as [a|] eqn:Hl; [|done].
    apply lookup_Some in Hl as [Ha Hid].
    destruct (store_ok_row _ _ Hok Ha) as (k' & Hk' & Hlt).
    rewrite Hk' in Hid. injection Hid as ->. lia. }
  destruct Hm as [Hm|Hm].
  - rewrite (app_get_account req w k) by done. unfold respond.
    by rewrite get_accounts_eval, Hl.
  - rewrite (app_put_account req w k) by done. unfold respond.
    by rewrite update_accounts_missing.
Qed.

Lemma unassigned_id_not_found_witness :
  status_code (app (get_request "/accounts/0") sample_world).1 = 404 ∧
  (app (get_request "/accounts/0") sample_world).2 = sample_world.
Proof.
  apply (unassigned_id_not_found sample_world (get_request "/accounts/0") 0);
    [reflexivity | left; reflexivity | reflexivity | left; lia].
Defined.

(** ** Any number of requests *)

Lemma serve_world_cons (req : request) (reqs : list request) (w : world) :
  (serve (req :: reqs) w).2 = (serve reqs (app req w).2).2.
Proof.
  cbn [serve]. destruct (app req w) as [resp w']. cbn [snd].
  by destruct (serve reqs w').
Qed.

(** X11. The store stays consistent under any sequence of requests: if
    every stored id is positive, below the counter and borne by one row
    only, the same holds after the application has served the requests
    one after the other. *)
Theorem store_consistent_forever (reqs : list request) (w : world) :
  store_ok (db w) = true → store_ok (db (serve reqs w).2) = true.
Proof.
  revert w. induction reqs as [|req reqs IH]; intros w Hok; [done|].
  rewrite serve_world_cons. by apply IH, app_preserves_store_ok.
Qed.

Lemma store_consistent_forever_witness :
  store_ok (db (serve [sample_post; sample_put; delete_request "/accounts/1";
                       bad_post; sample_post] sample_world).2) = true.
Proof. apply (store_consistent_forever _ sample_world). reflexivity. Defined.

(** * The test suite *)

Lemma client_post_factory (a : account) (w : world) :
  test_routes.client_post test_routes.BASE_URL (Account.serialize a) None w =
    inr (make_response (jsonify (Account.serialize (Account.with_id (next_id (db w)) a)))
           status.HTTP_201_CREATED [("Location", "/")],
         {| db := {| rows := rows (db w) ++ [Account.with_id (next_id (db w)) a];
                     next_id := next_id (db w) + 1 |};
            log := log w ++ [LogRecord "INFO" "Request to create an Account"];
            today := today w; on_non_json := on_non_json w |}).
Proof.
  reflexivity.
Qed.

Lemma create_accounts_loop_step (factory : nat → account) (count i : nat)
    (accounts : list account) (w : world) :
  test_routes._create_accounts_loop factory i (S count) accounts w =
    test_routes._create_accounts_loop factory (S i) count
      (accounts ++ [Account.with_id (next_id (db w)) (factory i)])
      {| db := {| rows := rows (db w) ++ [Account.with_id (next_id (db w)) (factory i)];
                  next_id := next_id (db w) + 1 |};
         log := log w ++ [LogRecord "INFO" "Request to create an Account"];
         today := today w; on_non_json := on_non_json w |}.
Proof. reflexivity. Qed.

Lemma create_accounts_loop_spec (factory : nat → account) (count i : nat)
    (accounts : list account) (w : world) :
  ∃ lg,
    test_routes._create_accounts_loop factory i count accounts w =
      inr (accounts ++ numbered factory i count (next_id (db w)),
           {| db := {| rows := rows (db w) ++ numbered factory i count (next_id (db w));
                       next_id := next_id (db w) + Z.of_nat count |};
              log := log w ++ lg;
              today := today w; on_non_json := on_non_json w |}).
Proof.
  revert i accounts w. induction count as [|count IH]; intros i accounts w.
  - exists []. cbn [test_routes._create_accounts_loop numbered].
    rewrite !app_nil_r, Z.add_0_r. by destruct w as [[] ].
  - rewrite create_accounts_loop_step.
    destruct (IH (S i) (accounts ++ [Account.with_id (next_id (db w)) (factory i)])
                {| db := {| rows := rows (db w) ++ [Account.with_id (next_id (db w)) (factory i)];
                            next_id := next_id (db w) + 1 |};
                   log := log w ++ [LogRecord "INFO" "Request to create an Account"];
                   today := today w; on_non_json := on_non_json w |}) as [lg ->].
    exists (LogRecord "INFO" "Request to create an Account" :: lg).
    cbn [db rows next_id log today numbered].
    rewrite <-!(assoc_L (++)). cbn [app].
    by replace (next_id (db w) + 1 + Z.of_nat count)
      with (next_id (db w) + Z.of_nat (S count)) by lia.
Qed.

Lemma numbered_length (factory : nat → account) (count i : nat) (k : Z) :
  length (numbered factory i count k) = count.
Proof.
  revert i k. induction count as [|count IH]; intros i k; [done|].
  cbn [numbered length]. by rewrite IH.
Qed.

(** X12. The bulk helper [_create_accounts] never fails: for any factory
    and any count it returns that many accounts, the i-th being the i-th
    account of the factory under the i-th id from the counter on; these
    are the rows the store gains, in order, and GET /accounts reports that
    many more accounts afterwards. *)
Theorem create_accounts_helper_spec (factory : nat → account) (count : nat) (w : world) :
  ∃ w',
    test_routes._create_accounts factory count w
    = inr (numbered factory 0 count (next_id (db w)), w') ∧
    length (numbered factory 0 count (next_id (db w))) = count ∧
    rows (db w') = rows (db w) ++ numbered factory 0 count (next_id (db w)) ∧
    next_id (db w') = next_id (db w) + Z.of_nat count ∧
    account_count w' = (λ c, (c + count)%nat) <$> account_count w.
Proof.
  unfold test_routes._create_accounts.
  destruct (create_accounts_loop_spec factory count 0 [] w) as [lg ->].
  eexists. split; [reflexivity|]. split; [apply numbered_length|].
  split; [done|]. split; [done|].
  rewrite !account_count_rows. cbn [db rows fmap option_fmap option_map].
  by rewrite length_app, numbered_length.
Qed.

Lemma test_bind {A B} (m : test_routes.T A) (k : A → test_routes.T B) (w w' : world) (a : A) :
  m w = inr (a, w') → (m ≫= k) w = k a w'.
Proof. intros H. unfold mbind, test_routes.T_mbind, test_routes.T_bind. by rewrite H. Qed.

Lemma test_bind_pair {A B} (m : test_routes.T A) (k : A → test_routes.T B) (w : world)
    (p : A * world) :
  m w = inr p → (m ≫= k) w = k p.1 p.2.
Proof. destruct p. apply test_bind. Qed.

Lemma test_bind_fail {A B} (m : test_routes.T A) (k : A → test_routes.T B) (w : world)
    (e : test_routes.test_error) :
  m w = inl e → (m ≫= k) w = inl e.
Proof. intros H. unfold mbind, test_routes.T_mbind, test_routes.T_bind. by rewrite H. Qed.

Lemma create_accounts_eval (factory : nat → account) (count : nat) (w : world) :
  ∃ lg,
    test_routes._create_accounts factory count w =
      inr (numbered factory 0 count (next_id (db w)),
           {| db := {| rows := rows (db w) ++ numbered factory 0 count (next_id (db w));
                       next_id := next_id (db w) + Z.of_nat count |};
              log := log w ++ lg;
              today := today w; on_non_json := on_non_json w |}).
Proof. apply (create_accounts_loop_spec factory count 0 [] w). Qed.

Lemma setUp_eval (w : world) :
  test_routes.setUp w
  = inr (tt, set_db {| rows := []; next_id := next_id (db w) |} w).
Proof. reflexivity. Qed.

Lemma client_get_list (w : world) :
  ∃ msg,
    test_routes.client_get test_routes.BASE_URL None w =
      inr (with_status (jsonify (JArr (Account.serialize <$> rows (db w)))) status.HTTP_200_OK,
           add_log (LogRecord "INFO" msg) w).
Proof.
  destruct (list_accounts_eval w) as [msg H]. exists msg.
  unfold test_routes.client_get, test_routes.client_open. f_equal.
  rewrite app_get_accounts by done. unfold respond. by rewrite H.
Qed.

Lemma run_test_pass (test : test_routes.T unit) (w : world) :
  (∃ w', test (set_db {| rows := []; next_id := next_id (db w) |} w) = inr (tt, w')) →
  ∃ w', test_routes.run_test test w = inr (tt, w').
Proof.
  intros [w' H]. exists w'. unfold test_routes.run_test.
  rewrite (test_bind _ _ _ _ _ (setUp_eval w)).
  by rewrite (test_bind _ _ _ _ _ H).
Qed.

Lemma run_test_fail (test : test_routes.T unit) (w : world) (e : test_routes.test_error) :
  test (set_db {| rows := []; next_id := next_id (db w) |} w) = inl e →
  test_routes.run_test test w = inl e.
Proof.
  intros H. unfold test_routes.run_test.
  rewrite (test_bind _ _ _ _ _ (setUp_eval w)).
  by rewrite (test_bind_fail _ _ _ _ H).
Qed.

(** X13. [test_get_account_list] passes in every world and for every
    factory: after the fixture has emptied the store and five accounts
    have been created, GET /accounts is answered 200 with a list of
    length five. *)
Theorem test_get_account_list_passes (factory : nat → account) (w : world) :
  ∃ w', test_routes.run_test (test_routes.test_get_account_list factory) w = inr (tt, w').
Proof.
  apply run_test_pass. set (w0 := set_db _ w).
  unfold test_routes.test_get_account_list.
  destruct (create_accounts_eval factory 5 w0) as [lg Hc].
  rewrite (test_bind _ _ _ _ _ Hc).
  set (w1 := {| db := _; log := _; today := _; on_non_json := _ |}).
  destruct (client_get_list w1) as [msg Hg].
  rewrite (test_bind _ _ _ _ _ Hg).
  eexists. reflexivity.
Qed.

Lemma assertEqual_refl {A} `{EqDecision A} (x : A) (w : world) :
  test_routes.assertEqual x x w = inr (tt, w).
Proof. unfold test_routes.assertEqual. by rewrite decide_True. Qed.

Lemma assertEqual_ne {A} `{EqDecision A} (x y : A) (w : world) :
  x ≠ y → test_routes.assertEqual x y w = inl test_routes.AssertionError.
Proof. intros H. unfold test_routes.assertEqual. by rewrite decide_False. Qed.

Lemma lookup_created_alone (k : Z) (a : account) :
  List.find (Account.has_id k) ([] ++ [Account.with_id k a]) = Some (Account.with_id k a).
Proof.
  simpl. unfold Account.has_id. cbn [id Account.with_id].
  by rewrite bool_decide_eq_true_2.
Qed.

Lemma client_get_account (k : Z) (ct : option string) (w : world) :
  0 ≤ k →
  test_routes.client_get (test_routes.BASE_URL +:+ "/" +:+ str_int k) ct w
  = inr (respond (get_accounts k) w).
Proof.
  intros Hk. unfold test_routes.client_get, test_routes.client_open. f_equal.
  apply app_get_account; [done|]. by apply (account_path_url k).
Qed.

Lemma client_put_account (k : Z) (body : json) (w : world) :
  0 ≤ k →
  test_routes.client_put (test_routes.BASE_URL +:+ "/" +:+ str_int k) body w
  = inr (respond (update_accounts k
                    {| method := "PUT";
                       path := test_routes.BASE_URL +:+ "/" +:+ str_int k;
                       headers := {[ "Content-Type" := "application/json" ]};
                       json_body := body |}) w).
Proof.
  intros Hk. unfold test_routes.client_put, test_routes.client_open. f_equal.
  apply app_put_account; [done|]. by apply (account_path_url k).
Qed.

(** X14. [test_read_an_account] passes for every factory in every world
    whose id counter is not negative: the account the helper created is
    read back with status 200 under the id the answer gave it, with the
    name the factory chose. *)
Theorem test_read_an_account_passes (factory : nat → account) (w : world) :
  0 ≤ next_id (db w) →
  ∃ w', test_routes.run_test (test_routes.test_read_an_account factory) w = inr (tt, w').
Proof.
  intros Hk. apply run_test_pass. set (w0 := set_db _ w).
  unfold test_routes.test_read_an_account.
  destruct (create_accounts_eval factory 1 w0) as [lg Hc].
  rewrite (test_bind _ _ _ _ _ Hc).
  set (w1 := {| db := _; log := _; today := _; on_non_json := _ |}).
  cbn [numbered]. set (a := Account.with_id (next_id (db w0)) (factory 0%nat)).
  rewrite (test_bind _ _ w1 w1 a) by reflexivity.
  rewrite (test_bind _ _ w1 w1 (str_int (next_id (db w0)))) by reflexivity.
  rewrite (test_bind_pair _ _ _ _ (client_get_account (next_id (db w0)) _ w1 Hk)).
  unfold respond. rewrite get_accounts_eval.
  assert (Account.lookup (next_id (db w0)) (db w1) = Some a) as ->
    by apply lookup_created_alone.
  cbn [fst snd].
  rewrite (test_bind _ _ w1 w1 tt) by reflexivity.
  rewrite (test_bind _ _ w1 w1 (name a)) by reflexivity.
  exists w1. apply assertEqual_refl.
Qed.

Lemma test_read_an_account_passes_witness :
  ∃ w', test_routes.run_test (test_routes.test_read_an_account (λ _, sample_account))
          sample_world = inr (tt, w').
Proof.
  apply (test_read_an_account_passes (λ _, sample_account) sample_world). vm_compute.
  discriminate.
Defined.

(** X15. [test_update_account] passes for every factory account in every
    world whose id counter is not negative: the account is created, the
    PUT of the answer with its name changed is answered 200, and the
    answer carries the new name. *)
Theorem test_update_account_passes (test_account : account) (w : world) :
  0 ≤ next_id (db w) →
  ∃ w', test_routes.run_test (test_routes.test_update_account test_account) w = inr (tt, w').
Proof.
  intros Hk. apply run_test_pass. set (w0 := set_db _ w).
  unfold test_routes.test_update_account.
  rewrite (test_bind _ _ _ _ _ (client_post_factory test_account w0)).
  set (w1 := {| db := _; log := _; today := _; on_non_json := _ |}).
  rewrite (test_bind _ _ w1 w1 tt) by reflexivity.
  set (k := next_id (db w0)).
  set (body := JObj (<["name" := JStr "Super Sonic"]>
                      {[ "id" := JNum k;
                         "name" := name test_account;
                         "email" := email test_account;
                         "address" := address test_account;
                         "phone_number" := phone_number test_account;
                         "date_joined" := date_joined test_account ]})).
  rewrite (test_bind _ _ w1 w1 body) by reflexivity.
  rewrite (test_bind _ _ w1 w1 (JNum k)) by reflexivity.
  rewrite (test_bind _ _ w1 w1 (str_int k)) by reflexivity.
  rewrite (test_bind_pair _ _ _ _ (client_put_account k body w1 Hk)).
  unfold respond.
  erewrite (update_accounts_ok k _ w1 (Account.with_id k test_account) _
              (JStr "Super Sonic") (email test_account));
    [|apply lookup_created_alone|reflexivity..].
  eexists. reflexivity.
Qed.

Lemma test_update_account_passes_witness :
  ∃ w', test_routes.run_test (test_routes.test_update_account sample_account)
          sample_world = inr (tt, w').
Proof.
  apply (test_update_account_passes sample_account sample_world). vm_compute.
  discriminate.
Defined.

Lemma client_post_factory_json (a : account) (w : world) :
  test_routes.client_post test_routes.BASE_URL (Account.serialize a)
    (Some "application/json") w
  = inr (make_response (jsonify (Account.serialize (Account.with_id (next_id (db w)) a)))
           status.HTTP_201_CREATED [("Location", "/")],
         {| db := {| rows := rows (db w) ++ [Account.with_id (next_id (db w)) a];
                     next_id := next_id (db w) + 1 |};
            log := log w ++ [LogRecord "INFO" "Request to create an Account"];
            today := today w; on_non_json := on_non_json w |}).
Proof. reflexivity. Qed.

(** X16. [test_create_account] passes in every world for every factory
    account whose [date_joined] is a date: the answer is 201, it has a
    Location header, and its name, email, address, phone number and date
    are those of the account posted. *)
Theorem test_create_account_passes (account : account) (s : string) (w : world) :
  date_joined account = JStr s →
  ∃ w', test_routes.run_test (test_routes.test_create_account account) w = inr (tt, w').
Proof.
  intros Hd. apply run_test_pass. set (w0 := set_db _ w).
  unfold test_routes.test_create_account.
  rewrite (test_bind _ _ _ _ _ (client_post_factory_json account w0)).
  set (w1 := {| db := _; log := _; today := _; on_non_json := _ |}).
  rewrite (test_bind _ _ w1 w1 tt) by reflexivity.
  rewrite (test_bind _ _ w1 w1 tt) by reflexivity.
  rewrite (test_bind _ _ w1 w1 (name account)) by reflexivity.
  rewrite (test_bind _ _ _ _ _ (assertEqual_refl _ w1)).
  rewrite (test_bind _ _ w1 w1 (email account)) by reflexivity.
  rewrite (test_bind _ _ _ _ _ (assertEqual_refl _ w1)).
  rewrite (test_bind _ _ w1 w1 (address account)) by reflexivity.
  rewrite (test_bind _ _ _ _ _ (assertEqual_refl _ w1)).
  rewrite (test_bind _ _ w1 w1 (phone_number account)) by reflexivity.
  rewrite (test_bind _ _ _ _ _ (assertEqual_refl _ w1)).
  rewrite (test_bind _ _ w1 w1 (date_joined account)) by reflexivity.
  rewrite (test_bind _ _ w1 w1 (JStr s)) by (by rewrite Hd).
  exists w1. rewrite Hd. apply assertEqual_refl.
Qed.

Lemma test_create_account_passes_witness :
  ∃ w', test_routes.run_test (test_routes.test_create_account sample_account)
          sample_world = inr (tt, w').
Proof.
  apply (test_create_account_passes sample_account "2022-11-05" sample_world).
  reflexivity.
Defined.

(** X17. The tests that create nothing pass in every world: the home page
    and the health check are answered 200, the health check with status
    "OK"; a payload with a name only is answered 400; a POST declared as
    test/html is answered 415 for every account; id 0 is answered 404 once
    the fixture has emptied the store; DELETE on /accounts is answered
    405. *)
Theorem stateless_tests_pass (w : world) (account : account) :
  (∃ w', test_routes.run_test test_routes.test_index w = inr (tt, w')) ∧
  (∃ w', test_routes.run_test test_routes.test_health w = inr (tt, w')) ∧
  (∃ w', test_routes.run_test test_routes.test_bad_request w = inr (tt, w')) ∧
  (∃ w', test_routes.run_test (test_routes.test_unsupported_media_type account) w
         = inr (tt, w')) ∧
  (∃ w', test_routes.run_test test_routes.test_get_account_not_found w = inr (tt, w')) ∧
  (∃ w', test_routes.run_test test_routes.test_method_not_allowed w = inr (tt, w')).
Proof.
  set (w0 := set_db {| rows := []; next_id := next_id (db w) |} w).
  set (w1 := add_log (LogRecord "INFO" "Request to create an Account") w0).
  repeat split; apply run_test_pass; fold w0.
  - by exists w0.
  - by exists w0.
  - by exists w1.
  - by exists (add_log (LogRecord "ERROR" "Invalid Content-Type: test/html") w1).
  - by exists w0.
  - by exists w0.
Qed.

Lemma client_delete_status (url : string) (w : world) :
  ∃ code, code ∈ [404; 405] ∧
    test_routes.client_delete url w
    = inr ((app (Request "DELETE" url ∅ JNull) w).1, w) ∧
    status_code (app (Request "DELETE" url ∅ JNull) w).1 = code.
Proof.
  destruct (delete_changes_nothing url ∅ JNull w) as [Hs Hw].
  exists (status_code (app (Request "DELETE" url ∅ JNull) w).1).
  split; [done|]. split; [|done].
  unfold test_routes.client_delete, test_routes.client_open.
  destruct (app (Request "DELETE" url ∅ JNull) w) as [r w'] eqn:E.
  cbn [fst snd] in *. by rewrite Hw.
Qed.

(** X18. [test_delete_account] fails in every world and for every
    factory: the account is created, but the DELETE on its id is answered
    404 or 405, never the 204 the test asserts. *)
Theorem test_delete_account_fails (factory : nat → account) (w : world) :
  test_routes.run_test (test_routes.test_delete_account factory) w
  = inl test_routes.AssertionError.
Proof.
  apply run_test_fail. set (w0 := set_db _ w).
  unfold test_routes.test_delete_account.
  destruct (create_accounts_eval factory 1 w0) as [lg Hc].
  rewrite (test_bind _ _ _ _ _ Hc).
  set (w1 := {| db := _; log := _; today := _; on_non_json := _ |}).
  cbn [numbered]. set (a := Account.with_id (next_id (db w0)) (factory 0%nat)).
  rewrite (test_bind _ _ w1 w1 a) by reflexivity.
  rewrite (test_bind _ _ w1 w1 (str_int (next_id (db w0)))) by reflexivity.
  destruct (client_delete_status
              (test_routes.BASE_URL +:+ "/" +:+ str_int (next_id (db w0))) w1)
    as (code & Hcode & Hd & Hs).
  rewrite (test_bind _ _ _ _ _ Hd). rewrite Hs.
  apply assertEqual_ne. intros ->. absurd_member Hcode.
Qed.
